(** * SwiftLink: the sign-up and sign-in screens

    A shallow embedding of [handleSignUp] (SignUpScreen.js) and
    [handleSignIn] (SignInScreen.js): the local validation, the call to the
    remote gateway, the interpretation of its answer and the navigation
    that follows. *)

From Stdlib Require Import List PeanoNat NArith Bool String Ascii Lia.
Import ListNotations.

Set Implicit Arguments.
Set Warnings "-register-all".

(** ** JavaScript strings

    A JavaScript string is a sequence of UTF-16 code units; [length],
    [includes] and a regular expression without the [u] flag all work on
    code units. *)

Definition codeunit := N.
Definition jsstring := list codeunit.

(** An ASCII literal of the source, as code units. *)
Definition lit (s : string) : jsstring :=
  map N_of_ascii (list_ascii_of_string s).

Definition jsstring_eqb (a b : jsstring) : bool :=
  if list_eq_dec N.eq_dec a b then true else false.

(** The symbols of the status texts that lie outside ASCII. *)
Definition cross_mark : jsstring := [0x274C%N].                 (* U+274C *)
Definition check_mark : jsstring := [0x2705%N].                 (* U+2705 *)
Definition arrows_mark : jsstring := [0xD83D%N; 0xDD04%N].      (* U+1F504 *)
Definition party_mark : jsstring := [0xD83C%N; 0xDF89%N].       (* U+1F389 *)

(** [!s] for a string [s]: only the empty string is falsy. *)
Definition str_falsy (s : jsstring) : bool :=
  match s with [] => true | _ :: _ => false end.

Fixpoint starts_with (p s : jsstring) : bool :=
  match p, s with
  | [], _ => true
  | _ :: _, [] => false
  | a :: p', b :: s' => N.eqb a b && starts_with p' s'
  end.

(** [s.includes(p)] of String.prototype. *)
Fixpoint includes (s p : jsstring) : bool :=
  starts_with p s ||
  match s with
  | [] => false
  | _ :: s' => includes s' p
  end.

(** ** Regular expressions

    The fragment of the regular expression language that the two screens
    use: character classes, sequence and iteration.  [Alt] is there for the
    derivative of a sequence. *)

Inductive regex : Type :=
| Never
| Empty
| Class (p : codeunit -> bool)
| Seq (r1 r2 : regex)
| Alt (r1 r2 : regex)
| Star (r : regex).

(** [r+] *)
Definition Plus (r : regex) : regex := Seq r (Star r).

Fixpoint nullable (r : regex) : bool :=
  match r with
  | Never => false
  | Empty => true
  | Class _ => false
  | Seq r1 r2 => nullable r1 && nullable r2
  | Alt r1 r2 => nullable r1 || nullable r2
  | Star _ => true
  end.

Fixpoint deriv (c : codeunit) (r : regex) : regex :=
  match r with
  | Never => Never
  | Empty => Never
  | Class p => if p c then Empty else Never
  | Seq r1 r2 =>
      if nullable r1
      then Alt (Seq (deriv c r1) r2) (deriv c r2)
      else Seq (deriv c r1) r2
  | Alt r1 r2 => Alt (deriv c r1) (deriv c r2)
  | Star r1 => Seq (deriv c r1) (Star r1)
  end.

(** [/^r$/.test(s)]: with both anchors and no flag, the search succeeds
    exactly when the whole of [s] is a word of [r]. *)
Fixpoint test (r : regex) (s : jsstring) : bool :=
  match s with
  | [] => nullable r
  | c :: s' => test (deriv c r) s'
  end.

(** The words of a regular expression. *)
Inductive Matches : regex -> jsstring -> Prop :=
| MEmpty : Matches Empty []
| MClass p c : p c = true -> Matches (Class p) [c]
| MSeq r1 r2 s1 s2 :
    Matches r1 s1 -> Matches r2 s2 -> Matches (Seq r1 r2) (s1 ++ s2)
| MAltL r1 r2 s : Matches r1 s -> Matches (Alt r1 r2) s
| MAltR r1 r2 s : Matches r2 s -> Matches (Alt r1 r2) s
| MStarNil r : Matches (Star r) []
| MStarApp r s1 s2 :
    Matches r s1 -> Matches (Star r) s2 -> Matches (Star r) (s1 ++ s2).

(** The class [\s]: WhiteSpace and LineTerminator of ECMAScript. *)
Definition is_space (c : codeunit) : bool :=
  (N.eqb c 0x09 || N.eqb c 0x0A || N.eqb c 0x0B || N.eqb c 0x0C ||
   N.eqb c 0x0D || N.eqb c 0x20 || N.eqb c 0xA0 || N.eqb c 0x1680 ||
   (N.leb 0x2000 c && N.leb c 0x200A) ||
   N.eqb c 0x2028 || N.eqb c 0x2029 || N.eqb c 0x202F ||
   N.eqb c 0x205F || N.eqb c 0x3000 || N.eqb c 0xFEFF)%N.

Definition at_sign : codeunit := 0x40%N.
Definition full_stop : codeunit := 0x2E%N.

(** The class [[^\s@]]. *)
Definition not_space_not_at (c : codeunit) : bool :=
  negb (is_space c || N.eqb c at_sign).

Definition Chr (c : codeunit) : regex := Class (N.eqb c).

(** [const emailRegex = /^[^\s@]+@[^\s@]+\.[^\s@]+$/;] *)
Definition emailRegex : regex :=
  Seq (Plus (Class not_space_not_at))
      (Seq (Chr at_sign)
           (Seq (Plus (Class not_space_not_at))
                (Seq (Chr full_stop)
                     (Plus (Class not_space_not_at))))).

(** ** Values

    What [response.json()] and [login] hand back.  A number is an IEEE
    double; the handlers only ever test one for truthiness or render it in
    a template literal, so a number is kept as these two observations. *)

Record jsnumber : Type := { num_truthy : bool; num_text : jsstring }.

Inductive jsvalue : Type :=
| VUndefined
| VNull
| VBool (b : bool)
| VNum (n : jsnumber)
| VStr (s : jsstring)
| VArr (elems : list jsvalue)
| VObj (members : list (jsstring * jsvalue)).

Inductive jserror : Type :=
| TypeError
| SyntaxError
| Thrown (reason : jsvalue).

(** Completion records: a statement list ends normally, by [return], or
    abruptly by a thrown error. *)
Inductive completion (A : Type) : Type :=
| Normal (a : A)
| Return
| Throw (e : jserror).

Arguments Normal {A} a.
Arguments Return {A}.
Arguments Throw {A} e.

(** ToBoolean *)
Definition truthy (v : jsvalue) : bool :=
  match v with
  | VUndefined | VNull => false
  | VBool b => b
  | VNum n => num_truthy n
  | VStr s => negb (str_falsy s)
  | VArr _ | VObj _ => true
  end.

(** The members of an object in the order they were defined: the last
    definition of a key wins. *)
Fixpoint own_property (k : jsstring) (members : list (jsstring * jsvalue))
  : option jsvalue :=
  match members with
  | [] => None
  | (k', v) :: rest =>
      match own_property k rest with
      | Some w => Some w
      | None => if jsstring_eqb k k' then Some v else None
      end
  end.

(** [v.k], for a key [k] that no prototype defines ([message], [token],
    [user], [id]). *)
Definition get (v : jsvalue) (k : jsstring) : completion jsvalue :=
  match v with
  | VUndefined | VNull => Throw TypeError
  | VObj members =>
      Normal (match own_property k members with
              | Some w => w
              | None => VUndefined
              end)
  | VBool _ | VNum _ | VStr _ | VArr _ => Normal VUndefined
  end.

(** [m.includes(x)] for a string [x]: String.prototype.includes on a
    string, Array.prototype.includes on an array; on any other value
    [m.includes] is not a function. *)
Definition call_includes (m : jsvalue) (x : jsstring) : completion bool :=
  match m with
  | VStr s => Normal (includes s x)
  | VArr elems =>
      Normal (existsb (fun e => match e with
                                | VStr t => jsstring_eqb t x
                                | _ => false
                                end) elems)
  | VUndefined | VNull | VBool _ | VNum _ | VObj _ => Throw TypeError
  end.

(** ToString, as a template literal applies it. *)
Fixpoint to_string (v : jsvalue) : jsstring :=
  match v with
  | VUndefined => lit "undefined"
  | VNull => lit "null"
  | VBool true => lit "true"
  | VBool false => lit "false"
  | VNum n => num_text n
  | VStr s => s
  | VArr elems =>
      (fix join (l : list jsvalue) : jsstring :=
         match l with
         | [] => []
         | x :: rest =>
             let sx := match x with
                       | VUndefined | VNull => []
                       | _ => to_string x
                       end in
             match rest with
             | [] => sx
             | _ :: _ => sx ++ lit "," ++ join rest
             end
         end) elems
  | VObj _ => lit "[object Object]"
  end.

(** ** Effects

    What a handler does to the world outside its own variables: state
    setters, alerts, navigation and the call to the gateway. *)

Inductive text_field : Type :=
| FullName | Email | Password | Phone | NationalID | Role
| StatusMessage | Message.

Inductive flag : Type := Loading | ShowPassword.

Record request : Type := {
  method : jsstring;
  headers : list (jsstring * jsstring);
  req_body : jsvalue        (* the argument of JSON.stringify *)
}.

(** The closures handed to Alert.alert as [onPress]. *)
Inductive callback : Type :=
| SignInNow                                          (* SignUpScreen.js:96 *)
| Continue (role : jsstring) (user token : jsvalue). (* SignInScreen.js:88 *)

(** A button that the caller of Alert.alert passes.  An alert called
    without buttons shows the platform's own OK button, which runs no code
    of the screen. *)
Record button : Type := { text : jsstring; onPress : callback }.

Inductive event : Type :=
| SetText (f : text_field) (v : jsstring)
| SetFlag (f : flag) (b : bool)
| Alert (title : jsstring) (message : jsvalue) (buttons : list button)
| Fetch (url : jsstring) (init : request)
| Login (email password role : jsstring)
| Navigate (screen : jsstring) (params : jsvalue).

(** A computation over the state [S] of a screen and the trace of its
    effects so far. *)
Definition M (S A : Type) : Type :=
  S * list event -> completion A * (S * list event).

Definition ret {S A} (a : A) : M S A := fun w => (Normal a, w).

Definition bind {S A B} (m : M S A) (k : A -> M S B) : M S B :=
  fun w =>
    match m w with
    | (Normal a, w') => k a w'
    | (Return, w') => (Return, w')
    | (Throw e, w') => (Throw e, w')
    end.

Declare Scope js_scope.
Delimit Scope js_scope with js.
Notation "x <- m ;; k" := (bind m (fun x => k))
  (at level 61, m at next level, right associativity) : js_scope.
Notation "m ;; k" := (bind m (fun _ => k))
  (at level 61, right associativity) : js_scope.
Open Scope js_scope.

Definition return_ {S A} : M S A := fun w => (Return, w).
Definition throw {S A} (e : jserror) : M S A := fun w => (Throw e, w).
Definition lift {S A} (c : completion A) : M S A := fun w => (c, w).

Definition emit {S} (e : event) : M S unit :=
  fun w => (Normal tt, (fst w, snd w ++ [e])).

Definition modify {S} (f : S -> S) : M S unit :=
  fun w => (Normal tt, (f (fst w), snd w)).

(** [if (c) { m }] *)
Definition when {S} (c : bool) (m : M S unit) : M S unit :=
  if c then m else ret tt.

(** [try { body } catch (error) { handler } finally { fin }] *)
Definition try_catch_finally {S}
  (body : M S unit) (handler : jserror -> M S unit) (fin : M S unit)
  : M S unit :=
  fun w =>
    let (c1, w1) := body w in
    let (c2, w2) := match c1 with
                    | Throw e => handler e w1
                    | _ => (c1, w1)
                    end in
    let (c3, w3) := fin w2 in
    match c3 with
    | Normal _ => (c2, w3)
    | _ => (c3, w3)
    end.

Definition alert {S} (title : jsstring) (message : jsvalue)
  (buttons : list button) : M S unit :=
  emit (Alert title message buttons).

Definition navigate {S} (screen : jsstring) (params : jsvalue) : M S unit :=
  emit (Navigate screen params).

(** The answer of the HTTP gateway. [resp_body] is what [response.json()]
    resolves to, [None] when the body is not JSON and the promise is
    rejected. *)
Record response : Type := {
  status : N;
  resp_body : option jsvalue
}.

(** [response.ok] *)
Definition ok (r : response) : bool :=
  (N.leb 200 (status r) && N.leb (status r) 299)%N.

Inductive fetch_outcome : Type :=
| FetchRejects (e : jserror)
| FetchResolves (r : response).

Inductive login_outcome : Type :=
| LoginRejects (e : jserror)
| LoginResolves (data : jsvalue).

Definition is_gateway (e : event) : bool :=
  match e with
  | Fetch _ _ | Login _ _ _ => true
  | _ => false
  end.

Definition is_navigate (e : event) : bool :=
  match e with
  | Navigate _ _ => true
  | _ => false
  end.

(** A computation is framed when it only appends to the trace and does
    the same whatever the trace holds already. *)
Definition framed {S A} (m : M S A) : Prop :=
  forall (s : S) (tr : list event),
    m (s, tr) =
    (fst (m (s, [])),
     (fst (snd (m (s, []))), tr ++ snd (snd (m (s, []))))).

(** The status banner of a screen: the three colours that depend on the
    text, and the text it shows. *)
Record status_view : Type := {
  backgroundColor : jsstring;
  borderLeftColor : jsstring;
  color : jsstring;
  children : jsstring
}.

(** The calls of the gateway in a trace. *)
Definition gateway_calls (tr : list event) : list event :=
  filter is_gateway tr.

Definition is_alert (e : event) : bool :=
  match e with
  | Alert _ _ _ => true
  | _ => false
  end.

(** The alerts raised in a trace. *)
Definition alerts (tr : list event) : list event := filter is_alert tr.

(** ** SignUpScreen.js *)

Module SignUp.

(** The [useState] cells of the component. *)
Record state : Type := {
  fullName : jsstring;
  email : jsstring;
  password : jsstring;
  phone : jsstring;
  nationalID : jsstring;
  role : jsstring;
  loading : bool;
  showPassword : bool;
  statusMessage : jsstring
}.

Definition initial : state :=
  {| fullName := []; email := []; password := []; phone := [];
     nationalID := []; role := []; loading := false;
     showPassword := false; statusMessage := [] |}.

Definition setFullName (v : jsstring) : M state unit :=
  modify (fun s =>
    {| fullName := v; email := email s; password := password s;
       phone := phone s; nationalID := nationalID s; role := role s;
       loading := loading s; showPassword := showPassword s;
       statusMessage := statusMessage s |}) ;;
  emit (SetText FullName v).

Definition setEmail (v : jsstring) : M state unit :=
  modify (fun s =>
    {| fullName := fullName s; email := v; password := password s;
       phone := phone s; nationalID := nationalID s; role := role s;
       loading := loading s; showPassword := showPassword s;
       statusMessage := statusMessage s |}) ;;
  emit (SetText Email v).

Definition setPassword (v : jsstring) : M state unit :=
  modify (fun s =>
    {| fullName := fullName s; email := email s; password := v;
       phone := phone s; nationalID := nationalID s; role := role s;
       loading := loading s; showPassword := showPassword s;
       statusMessage := statusMessage s |}) ;;
  emit (SetText Password v).

Definition setPhone (v : jsstring) : M state unit :=
  modify (fun s =>
    {| fullName := fullName s; email := email s; password := password s;
       phone := v; nationalID := nationalID s; role := role s;
       loading := loading s; showPassword := showPassword s;
       statusMessage := statusMessage s |}) ;;
  emit (SetText Phone v).

Definition setNationalID (v : jsstring) : M state unit :=
  modify (fun s =>
    {| fullName := fullName s; email := email s; password := password s;
       phone := phone s; nationalID := v; role := role s;
       loading := loading s; showPassword := showPassword s;
       statusMessage := statusMessage s |}) ;;
  emit (SetText NationalID v).

Definition setRole (v : jsstring) : M state unit :=
  modify (fun s =>
    {| fullName := fullName s; email := email s; password := password s;
       phone := phone s; nationalID := nationalID s; role := v;
       loading := loading s; showPassword := showPassword s;
       statusMessage := statusMessage s |}) ;;
  emit (SetText Role v).

Definition setLoading (b : bool) : M state unit :=
  modify (fun s =>
    {| fullName := fullName s; email := email s; password := password s;
       phone := phone s; nationalID := nationalID s; role := role s;
       loading := b; showPassword := showPassword s;
       statusMessage := statusMessage s |}) ;;
  emit (SetFlag Loading b).

Definition setStatusMessage (v : jsstring) : M state unit :=
  modify (fun s =>
    {| fullName := fullName s; email := email s; password := password s;
       phone := phone s; nationalID := nationalID s; role := role s;
       loading := loading s; showPassword := showPassword s;
       statusMessage := v |}) ;;
  emit (SetText StatusMessage v).

Definition register_url : jsstring :=
  lit "https://herbackend-4.onrender.com/api/auth/register".

(** The second argument of [fetch], lines 77-79. *)
Definition register_init (p : state) : request :=
  {| method := lit "POST";
     headers := [(lit "Content-Type", lit "application/json")];
     req_body := VObj [(lit "fullName", VStr (fullName p));
                       (lit "email", VStr (email p));
                       (lit "password", VStr (password p));
                       (lit "phone", VStr (phone p));
                       (lit "nationalID", VStr (nationalID p));
                       (lit "role", VStr (role p))] |}.

Definition msg_missing : jsstring :=
  cross_mark ++ lit " Please fill in all fields".
Definition msg_invalid_email : jsstring :=
  cross_mark ++ lit " Invalid email format".
Definition msg_weak_password : jsstring :=
  cross_mark ++ lit " Password too short".
Definition msg_creating : jsstring :=
  arrows_mark ++ lit " Creating your account...".
Definition msg_created : jsstring :=
  check_mark ++ lit " Account created successfully!".
Definition msg_connection : jsstring :=
  cross_mark ++ lit " Connection error".
Definition txt_created : jsstring :=
  lit "Your account has been created successfully! Please sign in to continue.".
Definition txt_connection : jsstring :=
  lit "Could not connect to the server. Please check your internet connection and try again.".
Definition msg_already_registered : jsstring :=
  lit "This email is already registered. Please sign in or use a different email.".
Definition msg_registration_failed : jsstring :=
  lit "Registration failed. Please try again.".

Section Handler.

(** The network: what [fetch(url, init)] settles to. *)
Variable fetch : jsstring -> request -> fetch_outcome.

(** [await fetch(url, init)] *)
Definition await_fetch (url : jsstring) (init : request) : M state response :=
  emit (Fetch url init) ;;
  match fetch url init with
  | FetchRejects e => throw e
  | FetchResolves r => ret r
  end.

(** [await response.json()] *)
Definition await_json (r : response) : M state jsvalue :=
  match resp_body r with
  | None => throw SyntaxError
  | Some v => ret v
  end.

(** [handleSignUp], lines 44-138.  [p] holds the values of the state
    variables in the render whose button was pressed; the calls to
    [console] are left out but for the evaluation of their arguments. *)
Definition handleSignUp (p : state) : M state unit :=
  setStatusMessage [] ;;
  when (str_falsy (fullName p) || str_falsy (email p) ||
        str_falsy (password p) || str_falsy (phone p) ||
        str_falsy (nationalID p) || str_falsy (role p))
    (setStatusMessage msg_missing ;;
     alert (lit "Missing Information")
           (VStr (lit "Please fill in all fields before signing up.")) [] ;;
     return_) ;;
  when (negb (test emailRegex (email p)))
    (setStatusMessage msg_invalid_email ;;
     alert (lit "Invalid Email")
           (VStr (lit "Please enter a valid email address.")) [] ;;
     return_) ;;
  when (Nat.ltb (List.length (password p)) 6)
    (setStatusMessage msg_weak_password ;;
     alert (lit "Weak Password")
           (VStr (lit "Password must be at least 6 characters long.")) [] ;;
     return_) ;;
  setLoading true ;;
  setStatusMessage msg_creating ;;
  try_catch_finally
    (response <- await_fetch register_url (register_init p) ;;   (* line 76 *)
     data <- await_json response ;;                              (* line 82 *)
     if ok response then                                         (* line 85 *)
       setStatusMessage msg_created ;;
       alert (party_mark ++ lit " Success!")
             (VStr txt_created)
             [ {| text := lit "Sign In Now"; onPress := SignInNow |} ]
     else
       _ <- lift (get data (lit "message")) ;;                 (* line 112 *)
       m <- lift (get data (lit "message")) ;;                 (* line 116 *)
       errorMessage <-
         (if truthy m then
            m1 <- lift (get data (lit "message")) ;;           (* line 117 *)
            found <- lift (call_includes m1 (lit "Email already registered")) ;;
            if found then ret (VStr msg_already_registered)
            else lift (get data (lit "message"))               (* line 120 *)
          else ret (VStr msg_registration_failed)) ;;
       setStatusMessage (cross_mark ++ lit " " ++ to_string errorMessage) ;;
       alert (lit "Registration Failed") errorMessage [])
    (fun error =>
       setStatusMessage msg_connection ;;
       alert (lit "Connection Error")
             (VStr txt_connection)
             [])
    (setLoading false).

(** One press of the Sign Up button in the state [s]. *)
Definition submit (s : state) : completion unit * (state * list event) :=
  handleSignUp s (s, []).

End Handler.

(** The [onPress] of the button of the success alert, lines 96-106. *)
Definition onPressSignInNow : M state unit :=
  setFullName [] ;;
  setEmail [] ;;
  setPassword [] ;;
  setPhone [] ;;
  setNationalID [] ;;
  setRole [] ;;
  navigate (lit "SignIn") VUndefined.

Definition press (cb : callback) : M state unit :=
  match cb with
  | SignInNow => onPressSignInNow
  | Continue _ _ _ => ret tt
  end.

(** ** Outcomes of a sign-up attempt *)

(** The state [p] with new values of [loading] and [statusMessage]. *)
Definition with_ui (p : state) (l : bool) (m : jsstring) : state :=
  {| fullName := fullName p; email := email p; password := password p;
     phone := phone p; nationalID := nationalID p; role := role p;
     loading := l; showPassword := showPassword p; statusMessage := m |}.

(** The attempt stopped at a validation: the status text [m] and one
    alert, then [return]. *)
Definition rejected (p : state) (m title txt : jsstring)
  : completion unit * (state * list event) :=
  (Return,
   (with_ui p (loading p) m,
    [SetText StatusMessage []; SetText StatusMessage m;
     Alert title (VStr txt) []])).

(** The attempt went to the gateway and came back with the status text [m]
    and one alert. *)
Definition finished (p : state) (m title : jsstring) (msg : jsvalue)
  (buttons : list button) : completion unit * (state * list event) :=
  (Normal tt,
   (with_ui p false m,
    [SetText StatusMessage []; SetFlag Loading true;
     SetText StatusMessage msg_creating;
     Fetch register_url (register_init p);
     SetText StatusMessage m; Alert title msg buttons;
     SetFlag Loading false])).

(** The state [s] with the six fields of the form emptied. *)
Definition cleared (s : state) : state :=
  {| fullName := []; email := []; password := []; phone := [];
     nationalID := []; role := []; loading := loading s;
     showPassword := showPassword s; statusMessage := statusMessage s |}.

(** The input strings of the form. *)
Definition fields (p : state) : list jsstring :=
  [fullName p; email p; password p; phone p; nationalID p; role p].

(** The condition of the first [if] of [handleSignUp], line 49. *)
Definition missing (p : state) : bool :=
  str_falsy (fullName p) || str_falsy (email p) ||
  str_falsy (password p) || str_falsy (phone p) ||
  str_falsy (nationalID p) || str_falsy (role p).

(** The text that lines 116-121 choose for a server message [m] that is
    a string and not empty. *)
Definition shown_message (m : jsstring) : jsstring :=
  if includes m (lit "Email already registered")
  then msg_already_registered
  else m.

(** What the validation of an attempt came to: [None] when the attempt
    went on to the gateway, the status text of the rejection otherwise. *)
Definition rejection (r : completion unit * (state * list event))
  : option jsstring :=
  if existsb is_gateway (snd (snd r)) then None
  else Some (statusMessage (fst (snd r))).

(** ** What the sign-up screen shows *)

Module COLORS.

Definition BACKGROUND_LIGHT : jsstring := lit "#F7F8FC".
Definition BACKGROUND_DARK : jsstring := lit "#2D4B46".
Definition ACCENT_GOLD : jsstring := lit "#FFB733".
Definition TEXT_DARK : jsstring := lit "#333333".
Definition TEXT_LIGHT : jsstring := lit "#FFFFFF".
Definition INPUT_BG : jsstring := lit "rgba(45, 75, 70, 0.05)".
Definition CARD_BG : jsstring := lit "#FFFFFF".
Definition SUCCESS : jsstring := lit "#4CAF50".
Definition ERROR : jsstring := lit "#FF4C4C".

End COLORS.

(** The status message display, lines 158-187: nothing for an empty
    text, else a banner whose colours go by the mark the text contains. *)
Definition statusBanner (statusMessage : jsstring) : option status_view :=
  if negb (str_falsy statusMessage) then
    Some {| backgroundColor :=
              if includes statusMessage check_mark
              then lit "rgba(76, 175, 80, 0.1)"
              else if includes statusMessage cross_mark
                   then lit "rgba(255, 76, 76, 0.1)"
                   else lit "rgba(255, 183, 51, 0.1)";
            borderLeftColor :=
              if includes statusMessage check_mark then COLORS.SUCCESS
              else if includes statusMessage cross_mark then COLORS.ERROR
                   else COLORS.ACCENT_GOLD;
            color :=
              if includes statusMessage check_mark then COLORS.SUCCESS
              else if includes statusMessage cross_mark then COLORS.ERROR
                   else COLORS.ACCENT_GOLD;
            children := statusMessage |}
  else None.


(** [secureTextEntry] of the password input, line 229. *)
Definition secureTextEntry (s : state) : bool := negb (showPassword s).

(** ** The actions of the user on the sign-up screen *)

Definition setShowPassword (b : bool) : M state unit :=
  modify (fun s =>
    {| fullName := fullName s; email := email s; password := password s;
       phone := phone s; nationalID := nationalID s; role := role s;
       loading := loading s; showPassword := b;
       statusMessage := statusMessage s |}) ;;
  emit (SetFlag ShowPassword b).

(** The values of the items of the role picker, lines 253-256. *)
Definition picker_values : list jsstring :=
  [[]; lit "carrier"; lit "sender"; lit "receiver"].

(** The roles that the picker offers besides the placeholder. *)
Definition picker_roles : list jsstring :=
  [lit "carrier"; lit "sender"; lit "receiver"].

Inductive action : Type :=
| TypeFullName (t : jsstring)       (* onChangeText={setFullName} *)
| TypeEmail (t : jsstring)          (* onChangeText={setEmail} *)
| TypePhone (t : jsstring)          (* onChangeText={setPhone} *)
| TypeNationalID (t : jsstring)     (* onChangeText={setNationalID} *)
| TypePassword (t : jsstring)       (* onChangeText={setPassword} *)
| PressEye                          (* the password visibility toggle *)
| PickRole (i : nat)                (* the i-th item of the picker *)
| PressSignUp                       (* onPress={handleSignUp} *)
| PressAlertButton (n i : nat)      (* i-th button of the alert at place n *)
| PressSignInLink.

Definition the_button (tr : list event) (n i : nat) : option callback :=
  match nth_error tr n with
  | Some (Alert _ _ buttons) =>
      match nth_error buttons i with
      | Some b => Some (onPress b)
      | None => None
      end
  | _ => None
  end.

Section Screen.

Variable fetch : jsstring -> request -> fetch_outcome.

(** The handler that an action runs in the world [w].  The Sign Up button
    is disabled while [loading] holds.  A handler runs to its end before
    the next action, and a button of any alert raised so far may be
    pressed. *)
Definition handler_of (a : action) (w : state * list event) : M state unit :=
  match a with
  | TypeFullName t => setFullName t
  | TypeEmail t => setEmail t
  | TypePhone t => setPhone t
  | TypeNationalID t => setNationalID t
  | TypePassword t => setPassword t
  | PressEye => setShowPassword (negb (showPassword (fst w)))
  | PickRole i =>
      match nth_error picker_values i with
      | Some itemValue => setRole itemValue
      | None => ret tt
      end
  | PressSignUp =>
      if loading (fst w) then ret tt else handleSignUp fetch (fst w)
  | PressAlertButton n i =>
      match the_button (snd w) n i with
      | Some cb => press cb
      | None => ret tt
      end
  | PressSignInLink => navigate (lit "SignIn") VUndefined
  end.

Definition step (w : state * list event) (a : action) : state * list event :=
  snd (handler_of a w w).

(** The screen after a sequence of actions, from its first render. *)
Definition run (acts : list action) : state * list event :=
  fold_left step acts (initial, []).

End Screen.

Definition is_PressEye (a : action) : bool :=
  match a with
  | PressEye => true
  | _ => false
  end.

(** A request of the trace is the registration of a valid form whose
    role is one that the picker offers. *)
Definition fetch_well_formed (e : event) : Prop :=
  match e with
  | Fetch url init =>
      url = register_url /\
      exists p, init = register_init p /\
                missing p = false /\
                test emailRegex (email p) = true /\
                6 <= List.length (password p) /\
                In (role p) picker_roles
  | _ => True
  end.

(** A navigation of the trace goes to SignIn. *)
Definition navigates_to_SignIn (e : event) : Prop :=
  match e with
  | Navigate screen _ => screen = lit "SignIn"
  | _ => True
  end.

End SignUp.

(** ** SignInScreen.js *)

Module SignIn.

Record state : Type := {
  email : jsstring;
  password : jsstring;
  role : jsstring;
  message : jsstring;
  loading : bool;
  showPassword : bool
}.

Definition initial : state :=
  {| email := []; password := []; role := lit "sender"; message := [];
     loading := false; showPassword := false |}.

Definition setEmail (v : jsstring) : M state unit :=
  modify (fun s =>
    {| email := v; password := password s; role := role s;
       message := message s; loading := loading s;
       showPassword := showPassword s |}) ;;
  emit (SetText Email v).

Definition setPassword (v : jsstring) : M state unit :=
  modify (fun s =>
    {| email := email s; password := v; role := role s;
       message := message s; loading := loading s;
       showPassword := showPassword s |}) ;;
  emit (SetText Password v).

Definition setRole (v : jsstring) : M state unit :=
  modify (fun s =>
    {| email := email s; password := password s; role := v;
       message := message s; loading := loading s;
       showPassword := showPassword s |}) ;;
  emit (SetText Role v).

Definition setMessage (v : jsstring) : M state unit :=
  modify (fun s =>
    {| email := email s; password := password s; role := role s;
       message := v; loading := loading s;
       showPassword := showPassword s |}) ;;
  emit (SetText Message v).

Definition setLoading (b : bool) : M state unit :=
  modify (fun s =>
    {| email := email s; password := password s; role := role s;
       message := message s; loading := b;
       showPassword := showPassword s |}) ;;
  emit (SetFlag Loading b).

Definition setShowPassword (b : bool) : M state unit :=
  modify (fun s =>
    {| email := email s; password := password s; role := role s;
       message := message s; loading := loading s;
       showPassword := b |}) ;;
  emit (SetFlag ShowPassword b).

Definition msg_missing : jsstring :=
  cross_mark ++ lit " Please fill all fields".
Definition msg_invalid_email : jsstring :=
  cross_mark ++ lit " Invalid email format".
Definition msg_signing_in : jsstring :=
  arrows_mark ++ lit " Signing in...".
Definition msg_invalid_credentials : jsstring :=
  cross_mark ++ lit " Login failed - Invalid credentials".
Definition msg_success : jsstring :=
  check_mark ++ lit " Login successful!".
Definition msg_connection : jsstring :=
  cross_mark ++ lit " Connection error".
Definition txt_connection : jsstring :=
  lit "Could not connect to the server. Please check your internet connection and try again.".

(** The array that the role buttons are mapped from, line 133. *)
Definition roles : list jsstring :=
  [lit "sender"; lit "carrier"; lit "agent"; lit "receiver"].

(** The [onPress] of the Continue button, lines 88-98, with the [role],
    [user] and [token] that the closure captured. *)
Definition onPressContinue (role : jsstring) (user token : jsvalue)
  : M state unit :=
  if jsstring_eqb role (lit "agent") then
    id <- lift (get user (lit "id")) ;;
    navigate (lit "AgentChat")
             (VObj [(lit "agentId", id); (lit "token", token)])
  else
    navigate (lit "Dashboard") (VObj [(lit "role", VStr role)]).

Definition press (cb : callback) : M state unit :=
  match cb with
  | Continue role user token => onPressContinue role user token
  | SignInNow => ret tt
  end.

Section Handler.

(** The [login] of the AuthContext: what [login(email, password, role)]
    settles to. *)
Variable login : jsstring -> jsstring -> jsstring -> login_outcome.

(** [await login(email, password, role)] *)
Definition await_login (email password role : jsstring) : M state jsvalue :=
  emit (Login email password role) ;;
  match login email password role with
  | LoginRejects e => throw e
  | LoginResolves data => ret data
  end.

(** [handleSignIn], lines 43-112, with [p] the values of the state
    variables in the render whose button was pressed. *)
Definition handleSignIn (p : state) : M state unit :=
  setMessage [] ;;
  when (str_falsy (email p) || str_falsy (password p))
    (setMessage msg_missing ;;
     alert (lit "Missing Information")
           (VStr (lit "Please enter both email and password.")) [] ;;
     return_) ;;
  when (negb (test emailRegex (email p)))
    (setMessage msg_invalid_email ;;
     alert (lit "Invalid Email")
           (VStr (lit "Please enter a valid email address.")) [] ;;
     return_) ;;
  setLoading true ;;
  setMessage msg_signing_in ;;
  try_catch_finally
    (data <- await_login (email p) (password p) (role p) ;;     (* line 67 *)
     when (negb (truthy data))                                   (* line 69 *)
       (setMessage msg_invalid_credentials ;;
        alert (lit "Login Failed")
              (VStr (lit "Invalid email or password. Please try again.")) [] ;;
        return_) ;;
     token <- lift (get data (lit "token")) ;;                  (* line 76 *)
     user <- lift (get data (lit "user")) ;;
     setMessage msg_success ;;
     alert (party_mark ++ lit " Welcome Back!")
           (VStr (lit "You're now signed in as " ++ role p ++ lit "."))
           [ {| text := lit "Continue";
                onPress := Continue (role p) user token |} ])
    (fun error =>
       setMessage msg_connection ;;
       alert (lit "Connection Error")
             (VStr txt_connection)
             [])
    (setLoading false).

(** One press of the Sign In button in the state [s]. *)
Definition submit (s : state) : completion unit * (state * list event) :=
  handleSignIn s (s, []).

(** What the user can do on the screen.  A handler runs to its end before
    the next action; a button of any alert raised so far may be pressed,
    which allows more than the platform does (there an alert goes away with
    the first press). *)
Inductive action : Type :=
| TypeEmail (t : jsstring)          (* onChangeText={setEmail} *)
| TypePassword (t : jsstring)       (* onChangeText={setPassword} *)
| PressRole (i : nat)               (* the i-th role button *)
| PressEye                          (* the password visibility toggle *)
| PressSignIn                       (* onPress={handleSignIn} *)
| PressAlertButton (n i : nat)      (* i-th button of the alert at place n of the trace *)
| PressSignUpLink.

Definition the_button (tr : list event) (n i : nat) : option callback :=
  match nth_error tr n with
  | Some (Alert _ _ buttons) =>
      match nth_error buttons i with
      | Some b => Some (onPress b)
      | None => None
      end
  | _ => None
  end.

(** The handler that an action runs in the world [w]. The Sign In button
    is disabled while [loading] holds. *)
Definition handler_of (a : action) (w : state * list event) : M state unit :=
  match a with
  | TypeEmail t => setEmail t
  | TypePassword t => setPassword t
  | PressRole i =>
      match nth_error roles i with
      | Some r => setRole r
      | None => ret tt
      end
  | PressEye => setShowPassword (negb (showPassword (fst w)))
  | PressSignIn =>
      if loading (fst w) then ret tt else handleSignIn (fst w)
  | PressAlertButton n i =>
      match the_button (snd w) n i with
      | Some cb => press cb
      | None => ret tt
      end
  | PressSignUpLink => navigate (lit "SignUp") VUndefined
  end.

Definition step (w : state * list event) (a : action) : state * list event :=
  snd (handler_of a w w).

(** The screen after a sequence of actions, from its first render. *)
Definition run (acts : list action) : state * list event :=
  fold_left step acts (initial, []).

End Handler.

(** ** Outcomes of a sign-in attempt *)

(** The state [p] with new values of [loading] and [message]. *)
Definition with_ui (p : state) (l : bool) (m : jsstring) : state :=
  {| email := email p; password := password p; role := role p;
     message := m; loading := l; showPassword := showPassword p |}.

(** The attempt stopped at a validation. *)
Definition rejected (p : state) (m title txt : jsstring)
  : completion unit * (state * list event) :=
  (Return,
   (with_ui p (loading p) m,
    [SetText Message []; SetText Message m; Alert title (VStr txt) []])).

(** The attempt went to the gateway and ended with the completion [c],
    the status text [m] and one alert. *)
Definition finished (c : completion unit) (p : state) (m title : jsstring)
  (msg : jsvalue) (buttons : list button)
  : completion unit * (state * list event) :=
  (c,
   (with_ui p false m,
    [SetText Message []; SetFlag Loading true;
     SetText Message msg_signing_in;
     Login (email p) (password p) (role p);
     SetText Message m; Alert title msg buttons;
     SetFlag Loading false])).

(** The input strings of the form. *)
Definition fields (p : state) : list jsstring := [email p; password p].

(** The condition of the first [if] of [handleSignIn], line 48. *)
Definition missing (p : state) : bool :=
  str_falsy (email p) || str_falsy (password p).

(** A call of the login gateway carries a role of the enumeration. *)
Definition login_role_in_enum (e : event) : Prop :=
  match e with
  | Login _ _ r => In r roles
  | _ => True
  end.

(** The role of the screen and the role of every login so far are of the
    enumeration. *)
Definition role_invariant (w : state * list event) : Prop :=
  In (role (fst w)) roles /\ Forall login_role_in_enum (snd w).

(** What the validation of an attempt came to: [None] when the attempt
    went on to the gateway, the status text of the rejection otherwise. *)
Definition rejection (r : completion unit * (state * list event))
  : option jsstring :=
  if existsb is_gateway (snd (snd r)) then None
  else Some (message (fst (snd r))).

(** ** What the sign-in screen shows *)

Module COLORS.

Definition BACKGROUND_LIGHT : jsstring := lit "#F7F8FC".
Definition BACKGROUND_DARK : jsstring := lit "#2D4B46".
Definition ACCENT_GOLD : jsstring := lit "#FFB733".
Definition TEXT_DARK : jsstring := lit "#333333".
Definition TEXT_LIGHT : jsstring := lit "#FFFFFF".
Definition INPUT_BG : jsstring := lit "rgba(45, 75, 70, 0.05)".
Definition CARD_BG : jsstring := lit "#FFFFFF".
Definition STATUS_GREEN : jsstring := lit "#4CAF50".
Definition STATUS_RED : jsstring := lit "#FF4C4C".

End COLORS.

(** The status message display, lines 156-185. *)
Definition statusBanner (message : jsstring) : option status_view :=
  if negb (str_falsy message) then
    Some {| backgroundColor :=
              if includes message check_mark
              then lit "rgba(76, 175, 80, 0.1)"
              else if includes message cross_mark
                   then lit "rgba(255, 76, 76, 0.1)"
                   else lit "rgba(255, 183, 51, 0.1)";
            borderLeftColor :=
              if includes message check_mark then COLORS.STATUS_GREEN
              else if includes message cross_mark then COLORS.STATUS_RED
                   else COLORS.ACCENT_GOLD;
            color :=
              if includes message check_mark then COLORS.STATUS_GREEN
              else if includes message cross_mark then COLORS.STATUS_RED
                   else COLORS.ACCENT_GOLD;
            children := message |}
  else None.

(** The colours of a role button, lines 134-148; its label is left
    out. *)
Record role_button : Type := {
  key : jsstring;
  button_backgroundColor : jsstring;
  label_color : jsstring
}.

(** The role selection, lines 133-152: one button for each role of the
    array, the selected one in gold. *)
Definition roleButtons (s : state) : list role_button :=
  map (fun r =>
         {| key := r;
            button_backgroundColor :=
              if jsstring_eqb (role s) r then COLORS.ACCENT_GOLD
              else lit "#eee";
            label_color :=
              if jsstring_eqb (role s) r then COLORS.BACKGROUND_DARK
              else lit "#333" |})
      roles.


(** [secureTextEntry] of the password input, line 205. *)
Definition secureTextEntry (s : state) : bool := negb (showPassword s).

Definition is_PressEye (a : action) : bool :=
  match a with
  | PressEye => true
  | _ => false
  end.

(** A navigation of the trace goes to one of the three screens that the
    sign-in screen names. *)
Definition navigates_to_known_screen (e : event) : Prop :=
  match e with
  | Navigate screen _ =>
      In screen [lit "AgentChat"; lit "Dashboard"; lit "SignUp"]
  | _ => True
  end.

End SignIn.

(** ** The specification's vocabulary *)

Module Spec.

(** A character that is neither white space nor [@]. *)
Definition non_space_non_at (c : codeunit) : Prop :=
  is_space c = false /\ c <> at_sign.

(** One or more such characters. *)
Definition part (x : jsstring) : Prop :=
  x <> [] /\ Forall non_space_non_at x.

(** The email shape [x@y.z]. *)
Definition email_shape (s : jsstring) : Prop :=
  exists x y z,
    part x /\ part y /\ part z /\
    s = x ++ at_sign :: y ++ full_stop :: z.

(** The required fields of a registration are all filled in. *)
Definition registration_complete (p : SignUp.state) : Prop :=
  SignUp.fullName p <> [] /\ SignUp.email p <> [] /\
  SignUp.password p <> [] /\ SignUp.phone p <> [] /\
  SignUp.nationalID p <> [] /\ SignUp.role p <> [].

(** Every local validation of a registration passes. *)
Definition registration_valid (p : SignUp.state) : Prop :=
  registration_complete p /\
  email_shape (SignUp.email p) /\
  6 <= List.length (SignUp.password p).

(** The required fields of a login are both filled in. *)
Definition login_complete (p : SignIn.state) : Prop :=
  SignIn.email p <> [] /\ SignIn.password p <> [].

(** Every local validation of a login passes. *)
Definition login_valid (p : SignIn.state) : Prop :=
  login_complete p /\ email_shape (SignIn.email p).

End Spec.

(** ** The scenarios of the specification *)

Module Scenario.

(** Scenario A: a registration with every field valid. *)
Definition jane : SignUp.state :=
  {| SignUp.fullName := lit "Jane Doe";
     SignUp.email := lit "jane@example.com";
     SignUp.password := lit "secret1";
     SignUp.phone := lit "555-0100";
     SignUp.nationalID := lit "X123";
     SignUp.role := lit "sender";
     SignUp.loading := false;
     SignUp.showPassword := false;
     SignUp.statusMessage := [] |}.

(** The same registration with a password of five characters and no
    phone number. *)
Definition jane_short : SignUp.state :=
  {| SignUp.fullName := lit "Jane Doe";
     SignUp.email := lit "jane@example.com";
     SignUp.password := lit "secre";
     SignUp.phone := [];
     SignUp.nationalID := lit "X123";
     SignUp.role := lit "sender";
     SignUp.loading := false;
     SignUp.showPassword := false;
     SignUp.statusMessage := [] |}.

(** A registration whose email has no domain. *)
Definition jane_bad_email : SignUp.state :=
  {| SignUp.fullName := lit "Jane Doe";
     SignUp.email := lit "bad-email";
     SignUp.password := lit "secret1";
     SignUp.phone := lit "555-0100";
     SignUp.nationalID := lit "X123";
     SignUp.role := lit "sender";
     SignUp.loading := false;
     SignUp.showPassword := false;
     SignUp.statusMessage := [] |}.

(** A server that answers 201 with a JSON body. *)
Definition server_created (_ : jsstring) (_ : request) : fetch_outcome :=
  FetchResolves
    {| status := 201;
       resp_body := Some (VObj [(lit "message", VStr (lit "User registered"))]) |}.

(** A server that answers 204 with an empty body. *)
Definition server_no_content (_ : jsstring) (_ : request) : fetch_outcome :=
  FetchResolves {| status := 204; resp_body := None |}.

(** Scenario D: the server answers 400 with a message. *)
Definition server_already_registered (_ : jsstring) (_ : request)
  : fetch_outcome :=
  FetchResolves
    {| status := 400;
       resp_body :=
         Some (VObj [(lit "message", VStr (lit "Email already registered"))]) |}.

(** Scenario E: the transport fails. *)
Definition network_down (_ : jsstring) (_ : request) : fetch_outcome :=
  FetchRejects TypeError.

(** Scenario B: a login with a malformed email. *)
Definition bad_email : SignIn.state :=
  {| SignIn.email := lit "bad-email";
     SignIn.password := lit "secret1";
     SignIn.role := lit "sender";
     SignIn.message := [];
     SignIn.loading := false;
     SignIn.showPassword := false |}.

(** The same login before the password is typed. *)
Definition bad_email_no_password : SignIn.state :=
  {| SignIn.email := lit "bad-email";
     SignIn.password := [];
     SignIn.role := lit "sender";
     SignIn.message := [];
     SignIn.loading := false;
     SignIn.showPassword := false |}.

(** Scenario C: a valid login as an agent. *)
Definition agent : SignIn.state :=
  {| SignIn.email := lit "jane@example.com";
     SignIn.password := lit "secret1";
     SignIn.role := lit "agent";
     SignIn.message := [];
     SignIn.loading := false;
     SignIn.showPassword := false |}.

(** A valid login as a carrier. *)
Definition carrier : SignIn.state :=
  {| SignIn.email := lit "jane@example.com";
     SignIn.password := lit "secret1";
     SignIn.role := lit "carrier";
     SignIn.message := [];
     SignIn.loading := false;
     SignIn.showPassword := false |}.

Definition user_u1 : jsvalue := VObj [(lit "id", VStr (lit "u1"))].

(** The gateway of scenario C. *)
Definition login_t1 (_ _ _ : jsstring) : login_outcome :=
  LoginResolves (VObj [(lit "token", VStr (lit "t1")); (lit "user", user_u1)]).

(** A gateway that resolves to [null]. *)
Definition login_null (_ _ _ : jsstring) : login_outcome :=
  LoginResolves VNull.

End Scenario.

(** * Properties *)

(** ** Regular expressions: [test] decides [Matches] *)

Lemma app_nil_both (A : Type) (a b : list A) : a ++ b = [] -> a = [] /\ b = [].
Proof. destruct a; simpl; intros H; [auto | discriminate]. Qed.

Lemma nullable_Matches (r : regex) : nullable r = true <-> Matches r [].
Proof.
  induction r as [ | | p | r1 IH1 r2 IH2 | r1 IH1 r2 IH2 | r IH]; simpl.
  - split; [discriminate | intros H; inversion H].
  - split; [constructor | reflexivity].
  - split; [discriminate | intros H; inversion H].
  - rewrite andb_true_iff, IH1, IH2. split.
    + intros [H1 H2]. change (@nil codeunit) with (@nil codeunit ++ []).
      constructor; assumption.
    + intros H. inversion H as [ | | ? ? s1 s2 M1 M2 [E1 E2] E | | | | ]; subst.
      apply app_nil_both in E. destruct E; subst. auto.
  - rewrite orb_true_iff, IH1, IH2. split.
    + intros [H | H]; [apply MAltL | apply MAltR]; assumption.
    + intros H. inversion H; subst; auto.
  - split; [constructor | reflexivity].
Qed.

Lemma Matches_Star_cons (r : regex) (c : codeunit) (s : jsstring) :
  Matches (Star r) (c :: s) ->
  exists s1 s2, s = s1 ++ s2 /\ Matches r (c :: s1) /\ Matches (Star r) s2.
Proof.
  intros H. remember (Star r) as r' eqn:Er. remember (c :: s) as w eqn:Ew.
  induction H as [ | | | | | | r0 s1 s2 H1 _ H2 IH2]; try discriminate.
  injection Er as ->.
  destruct s1 as [ | c1 s1']; simpl in Ew.
  - apply IH2; [reflexivity | assumption].
  - injection Ew as -> <-. exists s1', s2. auto.
Qed.

Lemma deriv_Matches (r : regex) :
  forall c s, Matches (deriv c r) s <-> Matches r (c :: s).
Proof.
  induction r as [ | | p | r1 IH1 r2 IH2 | r1 IH1 r2 IH2 | r IH];
    intros c s; simpl.
  - split; intros H; inversion H.
  - split; intros H; inversion H.
  - destruct (p c) eqn:Ep; split; intros H; inversion H; subst.
    + constructor; assumption.
    + constructor.
    + congruence.
  - assert (Hseq : Matches (Seq (deriv c r1) r2) s ->
                   Matches (Seq r1 r2) (c :: s)).
    { intros H. inversion H; subst.
      change (c :: s1 ++ s2) with ((c :: s1) ++ s2).
      constructor; [apply IH1 | ]; assumption. }
    assert (Hinv : Matches (Seq r1 r2) (c :: s) ->
                   Matches (Seq (deriv c r1) r2) s \/
                   (nullable r1 = true /\ Matches (deriv c r2) s)).
    { intros H. inversion H as [ | | ? ? s1 s2 M1 M2 [E1 E2] E | | | | ]; subst.
      destruct s1 as [ | c1 s1']; simpl in E.
      - right. subst s2. split; [apply nullable_Matches | apply IH2]; assumption.
      - injection E as -> <-. left. constructor; [apply IH1 | ]; assumption. }
    destruct (nullable r1) eqn:En; split; intros H.
    + inversion H; subst; [apply Hseq; assumption | ].
      change (c :: s) with ([] ++ c :: s).
      constructor; [apply nullable_Matches | apply IH2]; assumption.
    + destruct (Hinv H) as [H1 | [_ H2]]; [apply MAltL | apply MAltR]; assumption.
    + apply Hseq; assumption.
    + destruct (Hinv H) as [H1 | [H1 _]]; [assumption | discriminate].
  - split; intros H; inversion H; subst.
    + apply MAltL, IH1; assumption.
    + apply MAltR, IH2; assumption.
    + apply MAltL, IH1; assumption.
    + apply MAltR, IH2; assumption.
  - split; intros H.
    + inversion H; subst.
      change (c :: s1 ++ s2) with ((c :: s1) ++ s2).
      constructor; [apply IH | ]; assumption.
    + apply Matches_Star_cons in H. destruct H as (s1 & s2 & -> & H1 & H2).
      constructor; [apply IH | ]; assumption.
Qed.

Lemma test_Matches (s : jsstring) :
  forall r, test r s = true <-> Matches r s.
Proof.
  induction s as [ | c s IH]; intros r; simpl.
  - apply nullable_Matches.
  - rewrite IH. apply deriv_Matches.
Qed.

(** ** The email pattern and the email shape *)

Lemma not_space_not_at_spec (c : codeunit) :
  not_space_not_at c = true <-> Spec.non_space_non_at c.
Proof.
  unfold not_space_not_at, Spec.non_space_non_at.
  rewrite negb_true_iff, orb_false_iff, N.eqb_neq. tauto.
Qed.

Lemma Matches_Class_inv (p : codeunit -> bool) (s : jsstring) :
  Matches (Class p) s -> exists c, s = [c] /\ p c = true.
Proof. intros H. inversion H; subst. eauto. Qed.

Lemma Matches_Star_Class (p : codeunit -> bool) (s : jsstring) :
  Matches (Star (Class p)) s <-> Forall (fun c => p c = true) s.
Proof.
  split.
  - intros H. remember (Star (Class p)) as r eqn:Er.
    induction H as [ | | | | | | r0 s1 s2 H1 _ H2 IH2]; try discriminate.
    + constructor.
    + injection Er as ->.
      apply Matches_Class_inv in H1. destruct H1 as (c & -> & Hc).
      simpl. constructor; [assumption | apply IH2; reflexivity].
  - induction 1 as [ | c s' Hc _ IH].
    + constructor.
    + change (c :: s') with ([c] ++ s').
      constructor; [constructor | ]; assumption.
Qed.

Lemma Matches_Plus_Class (p : codeunit -> bool) (s : jsstring) :
  Matches (Plus (Class p)) s <-> s <> [] /\ Forall (fun c => p c = true) s.
Proof.
  unfold Plus. split.
  - intros H. inversion H as [ | | ? ? s1 s2 M1 M2 [E1 E2] E | | | | ]; subst.
    apply Matches_Class_inv in M1. destruct M1 as (c & -> & Hc).
    apply Matches_Star_Class in M2. simpl.
    split; [discriminate | constructor; assumption].
  - intros [Hne Hall]. destruct Hall as [ | c s' Hc Hs']; [congruence | ].
    change (c :: s') with ([c] ++ s').
    constructor; [constructor; assumption | apply Matches_Star_Class; assumption].
Qed.

Lemma Matches_part (s : jsstring) :
  Matches (Plus (Class not_space_not_at)) s <-> Spec.part s.
Proof.
  rewrite Matches_Plus_Class. unfold Spec.part.
  rewrite !Forall_forall.
  split; intros [Hne Hall]; (split; [assumption | ]);
    intros c Hc; apply not_space_not_at_spec, Hall, Hc.
Qed.

Lemma Matches_Chr (c : codeunit) (s : jsstring) :
  Matches (Chr c) s <-> s = [c].
Proof.
  unfold Chr. split.
  - intros H. apply Matches_Class_inv in H. destruct H as (c' & -> & Hc).
    apply N.eqb_eq in Hc. congruence.
  - intros ->. constructor. apply N.eqb_refl.
Qed.

Lemma Matches_Seq (r1 r2 : regex) (s : jsstring) :
  Matches (Seq r1 r2) s <->
  exists s1 s2, s = s1 ++ s2 /\ Matches r1 s1 /\ Matches r2 s2.
Proof.
  split.
  - intros H. inversion H; subst. eauto.
  - intros (s1 & s2 & -> & H1 & H2). constructor; assumption.
Qed.

Lemma Matches_emailRegex (s : jsstring) :
  Matches emailRegex s <-> Spec.email_shape s.
Proof.
  unfold emailRegex, Spec.email_shape. split.
  - intros H.
    apply Matches_Seq in H. destruct H as (x & s1 & -> & Hx & H).
    apply Matches_Seq in H. destruct H as (a & s2 & -> & Ha & H).
    apply Matches_Seq in H. destruct H as (y & s3 & -> & Hy & H).
    apply Matches_Seq in H. destruct H as (d & z & -> & Hd & Hz).
    apply Matches_Chr in Ha, Hd. subst a d.
    apply Matches_part in Hx, Hy, Hz.
    exists x, y, z. simpl. auto.
  - intros (x & y & z & Hx & Hy & Hz & ->).
    apply Matches_part in Hx, Hy, Hz.
    constructor; [assumption | ].
    change (at_sign :: y ++ full_stop :: z)
      with ([at_sign] ++ y ++ [full_stop] ++ z).
    constructor; [apply Matches_Chr; reflexivity | ].
    constructor; [assumption | ].
    constructor; [apply Matches_Chr; reflexivity | assumption].
Qed.

(** [emailRegex.test] accepts exactly the strings of the shape [x@y.z]. *)
Lemma emailRegex_test_shape (s : jsstring) :
  test emailRegex s = true <-> Spec.email_shape s.
Proof. rewrite test_Matches. apply Matches_emailRegex. Qed.

Lemma emailRegex_test_not_shape (s : jsstring) :
  test emailRegex s = false <-> ~ Spec.email_shape s.
Proof.
  rewrite <- emailRegex_test_shape. destruct (test emailRegex s); split;
    intros H; try reflexivity; try discriminate; try congruence.
Qed.

Example emailRegex_jane : test emailRegex (lit "jane@example.com") = true.
Proof. reflexivity. Qed.

Example emailRegex_bad : test emailRegex (lit "bad-email") = false.
Proof. reflexivity. Qed.

Example emailRegex_space : test emailRegex (lit "ja ne@example.com") = false.
Proof. reflexivity. Qed.

Example emailRegex_dots : test emailRegex (lit "a.b@c.d.e") = true.
Proof. reflexivity. Qed.

Example emailRegex_no_tld : test emailRegex (lit "jane@example.") = false.
Proof. reflexivity. Qed.

(** ** The paths of [handleSignUp] *)

Lemma str_falsy_true (s : jsstring) : str_falsy s = true <-> s = [].
Proof. destruct s; simpl; split; intros H; congruence. Qed.

Lemma str_falsy_false (s : jsstring) : str_falsy s = false <-> s <> [].
Proof. destruct s; simpl; split; intros H; congruence. Qed.

(** Runs the state and trace plumbing of a handler. *)
Ltac run_handler :=
  cbv beta iota delta
    [bind ret when try_catch_finally emit modify fst snd lift throw return_
     alert navigate
     SignUp.setStatusMessage SignUp.setLoading SignUp.setFullName
     SignUp.setEmail SignUp.setPassword SignUp.setPhone SignUp.setNationalID
     SignUp.setRole SignUp.await_fetch SignUp.await_json
     SignIn.setMessage SignIn.setLoading SignIn.setEmail SignIn.setPassword
     SignIn.setRole SignIn.setShowPassword SignIn.await_login].

Ltac enter_signup H He Hp :=
  unfold SignUp.missing in H;
  unfold SignUp.submit, SignUp.handleSignUp;
  rewrite H, He, Hp; run_handler.

Section SignUpPaths.

Variable fetch : jsstring -> request -> fetch_outcome.

Lemma signup_missing_false (p : SignUp.state) :
  SignUp.missing p = false <-> Spec.registration_complete p.
Proof.
  unfold SignUp.missing, Spec.registration_complete.
  rewrite !orb_false_iff, !str_falsy_false. tauto.
Qed.

Lemma signup_missing_true (p : SignUp.state) :
  SignUp.missing p = true <->
  SignUp.fullName p = [] \/ SignUp.email p = [] \/ SignUp.password p = [] \/
  SignUp.phone p = [] \/ SignUp.nationalID p = [] \/ SignUp.role p = [].
Proof.
  unfold SignUp.missing.
  rewrite !orb_true_iff, !str_falsy_true. tauto.
Qed.

Lemma signup_path_missing (p : SignUp.state) :
  SignUp.missing p = true ->
  SignUp.submit fetch p =
  SignUp.rejected p SignUp.msg_missing (lit "Missing Information")
    (lit "Please fill in all fields before signing up.").
Proof.
  intros H. unfold SignUp.missing in H.
  unfold SignUp.submit, SignUp.handleSignUp. rewrite H. reflexivity.
Qed.

Lemma signup_path_invalid_email (p : SignUp.state) :
  SignUp.missing p = false ->
  test emailRegex (SignUp.email p) = false ->
  SignUp.submit fetch p =
  SignUp.rejected p SignUp.msg_invalid_email (lit "Invalid Email")
    (lit "Please enter a valid email address.").
Proof.
  intros H He. unfold SignUp.missing in H.
  unfold SignUp.submit, SignUp.handleSignUp. rewrite H, He. reflexivity.
Qed.

Lemma signup_path_weak_password (p : SignUp.state) :
  SignUp.missing p = false ->
  test emailRegex (SignUp.email p) = true ->
  Nat.ltb (List.length (SignUp.password p)) 6 = true ->
  SignUp.submit fetch p =
  SignUp.rejected p SignUp.msg_weak_password (lit "Weak Password")
    (lit "Password must be at least 6 characters long.").
Proof.
  intros H He Hp. unfold SignUp.missing in H.
  unfold SignUp.submit, SignUp.handleSignUp. rewrite H, He, Hp. reflexivity.
Qed.

Lemma registration_valid_checks (p : SignUp.state) :
  Spec.registration_valid p <->
  SignUp.missing p = false /\
  test emailRegex (SignUp.email p) = true /\
  Nat.ltb (List.length (SignUp.password p)) 6 = false.
Proof.
  unfold Spec.registration_valid.
  rewrite signup_missing_false, emailRegex_test_shape, Nat.ltb_ge. tauto.
Qed.

Lemma signup_path_rejects (p : SignUp.state) (e : jserror) :
  Spec.registration_valid p ->
  fetch SignUp.register_url (SignUp.register_init p) = FetchRejects e ->
  SignUp.submit fetch p =
  SignUp.finished p SignUp.msg_connection (lit "Connection Error")
    (VStr SignUp.txt_connection)
    [].
Proof.
  intros Hv Hf. apply registration_valid_checks in Hv.
  destruct Hv as (H & He & Hp).
  enter_signup H He Hp. rewrite Hf. reflexivity.
Qed.

Lemma signup_path_not_json (p : SignUp.state) (r : response) :
  Spec.registration_valid p ->
  fetch SignUp.register_url (SignUp.register_init p) = FetchResolves r ->
  resp_body r = None ->
  SignUp.submit fetch p =
  SignUp.finished p SignUp.msg_connection (lit "Connection Error")
    (VStr SignUp.txt_connection)
    [].
Proof.
  intros Hv Hf Hb. apply registration_valid_checks in Hv.
  destruct Hv as (H & He & Hp).
  enter_signup H He Hp. rewrite Hf. run_handler. rewrite Hb. reflexivity.
Qed.

Lemma signup_path_ok (p : SignUp.state) (r : response) (data : jsvalue) :
  Spec.registration_valid p ->
  fetch SignUp.register_url (SignUp.register_init p) = FetchResolves r ->
  resp_body r = Some data ->
  ok r = true ->
  SignUp.submit fetch p =
  SignUp.finished p SignUp.msg_created (party_mark ++ lit " Success!")
    (VStr SignUp.txt_created)
    [ {| text := lit "Sign In Now"; onPress := SignInNow |} ].
Proof.
  intros Hv Hf Hb Hok. apply registration_valid_checks in Hv.
  destruct Hv as (H & He & Hp).
  enter_signup H He Hp. rewrite Hf. run_handler. rewrite Hb, Hok.
  reflexivity.
Qed.

Lemma signup_path_message (p : SignUp.state) (r : response)
  (data : jsvalue) (m : jsstring) :
  Spec.registration_valid p ->
  fetch SignUp.register_url (SignUp.register_init p) = FetchResolves r ->
  resp_body r = Some data ->
  ok r = false ->
  get data (lit "message") = Normal (VStr m) ->
  m <> [] ->
  SignUp.submit fetch p =
  SignUp.finished p (cross_mark ++ lit " " ++ SignUp.shown_message m)
    (lit "Registration Failed") (VStr (SignUp.shown_message m)) [].
Proof.
  intros Hv Hf Hb Hok Hm Hne. apply registration_valid_checks in Hv.
  destruct Hv as (H & He & Hp).
  enter_signup H He Hp. rewrite Hf. run_handler. rewrite Hb, Hok.
  run_handler. rewrite !Hm. unfold SignUp.shown_message.
  destruct m as [ | c m']; [congruence | ].
  unfold truthy, str_falsy, negb, call_includes.
  destruct (includes (c :: m') (lit "Email already registered"));
    reflexivity.
Qed.

Lemma signup_path_not_ok (p : SignUp.state) (r : response) :
  Spec.registration_valid p ->
  fetch SignUp.register_url (SignUp.register_init p) = FetchResolves r ->
  ok r = false ->
  exists m title msg,
    SignUp.submit fetch p = SignUp.finished p (cross_mark ++ m) title msg [].
Proof.
  intros Hv Hf Hok. apply registration_valid_checks in Hv.
  destruct Hv as (H & He & Hp).
  enter_signup H He Hp. rewrite Hf. run_handler. rewrite Hok.
  destruct (resp_body r) as [data | ]; [ | do 3 eexists; reflexivity].
  unfold get.
  destruct data as [ | | b | n | t | elems | members];
    try (do 3 eexists; reflexivity).
  destruct (own_property (lit "message") members) as [v | ];
    [ | do 3 eexists; reflexivity].
  destruct v as [ | | b | n | t | elems | members'];
    unfold truthy, call_includes;
    try (do 3 eexists; reflexivity).
  - destruct b; do 3 eexists; reflexivity.
  - destruct (num_truthy n); do 3 eexists; reflexivity.
  - destruct t as [ | c t']; [do 3 eexists; reflexivity | ].
    unfold str_falsy, negb.
    destruct (includes (c :: t') (lit "Email already registered"));
      do 3 eexists; reflexivity.
  - match goal with
    | |- context [existsb ?f elems] => destruct (existsb f elems)
    end; do 3 eexists; reflexivity.
Qed.

End SignUpPaths.

(** ** The paths of [handleSignIn] *)

Lemma jsstring_eqb_true (a b : jsstring) : jsstring_eqb a b = true <-> a = b.
Proof.
  unfold jsstring_eqb. destruct (list_eq_dec N.eq_dec a b); split;
    intros H; congruence.
Qed.

Lemma jsstring_eqb_false (a b : jsstring) : jsstring_eqb a b = false <-> a <> b.
Proof.
  unfold jsstring_eqb. destruct (list_eq_dec N.eq_dec a b); split;
    intros H; congruence.
Qed.

(** A property of a truthy value can be read. *)
Lemma get_truthy (v : jsvalue) (k : jsstring) :
  truthy v = true -> exists w, get v k = Normal w.
Proof.
  destruct v; simpl; intros H; try discriminate; eexists; reflexivity.
Qed.

Ltac enter_signin H He :=
  unfold SignIn.missing in H;
  unfold SignIn.submit, SignIn.handleSignIn;
  rewrite H, He; run_handler.

Section SignInPaths.

Variable login : jsstring -> jsstring -> jsstring -> login_outcome.

Lemma signin_missing_false (p : SignIn.state) :
  SignIn.missing p = false <-> Spec.login_complete p.
Proof.
  unfold SignIn.missing, Spec.login_complete.
  rewrite !orb_false_iff, !str_falsy_false. tauto.
Qed.

Lemma signin_missing_true (p : SignIn.state) :
  SignIn.missing p = true <-> SignIn.email p = [] \/ SignIn.password p = [].
Proof.
  unfold SignIn.missing. rewrite !orb_true_iff, !str_falsy_true. tauto.
Qed.

Lemma login_valid_checks (p : SignIn.state) :
  Spec.login_valid p <->
  SignIn.missing p = false /\ test emailRegex (SignIn.email p) = true.
Proof.
  unfold Spec.login_valid.
  rewrite signin_missing_false, emailRegex_test_shape. tauto.
Qed.

Lemma signin_path_missing (p : SignIn.state) :
  SignIn.missing p = true ->
  SignIn.submit login p =
  SignIn.rejected p SignIn.msg_missing (lit "Missing Information")
    (lit "Please enter both email and password.").
Proof.
  intros H. unfold SignIn.missing in H.
  unfold SignIn.submit, SignIn.handleSignIn. rewrite H. reflexivity.
Qed.

Lemma signin_path_invalid_email (p : SignIn.state) :
  SignIn.missing p = false ->
  test emailRegex (SignIn.email p) = false ->
  SignIn.submit login p =
  SignIn.rejected p SignIn.msg_invalid_email (lit "Invalid Email")
    (lit "Please enter a valid email address.").
Proof.
  intros H He. unfold SignIn.missing in H.
  unfold SignIn.submit, SignIn.handleSignIn. rewrite H, He. reflexivity.
Qed.

Lemma signin_path_rejects (p : SignIn.state) (e : jserror) :
  Spec.login_valid p ->
  login (SignIn.email p) (SignIn.password p) (SignIn.role p) = LoginRejects e ->
  SignIn.submit login p =
  SignIn.finished (Normal tt) p SignIn.msg_connection (lit "Connection Error")
    (VStr SignIn.txt_connection)
    [].
Proof.
  intros Hv Hl. apply login_valid_checks in Hv. destruct Hv as (H & He).
  enter_signin H He. rewrite Hl. reflexivity.
Qed.

Lemma signin_path_falsy (p : SignIn.state) (data : jsvalue) :
  Spec.login_valid p ->
  login (SignIn.email p) (SignIn.password p) (SignIn.role p)
    = LoginResolves data ->
  truthy data = false ->
  SignIn.submit login p =
  SignIn.finished Return p SignIn.msg_invalid_credentials (lit "Login Failed")
    (VStr (lit "Invalid email or password. Please try again.")) [].
Proof.
  intros Hv Hl Ht. apply login_valid_checks in Hv. destruct Hv as (H & He).
  enter_signin H He. rewrite Hl. run_handler. rewrite Ht. reflexivity.
Qed.

Lemma signin_path_success (p : SignIn.state) (data token user : jsvalue) :
  Spec.login_valid p ->
  login (SignIn.email p) (SignIn.password p) (SignIn.role p)
    = LoginResolves data ->
  truthy data = true ->
  get data (lit "token") = Normal token ->
  get data (lit "user") = Normal user ->
  SignIn.submit login p =
  SignIn.finished (Normal tt) p SignIn.msg_success
    (party_mark ++ lit " Welcome Back!")
    (VStr (lit "You're now signed in as " ++ SignIn.role p ++ lit "."))
    [ {| text := lit "Continue";
         onPress := Continue (SignIn.role p) user token |} ].
Proof.
  intros Hv Hl Ht Htok Husr.
  apply login_valid_checks in Hv. destruct Hv as (H & He).
  enter_signin H He. rewrite Hl. run_handler. rewrite Ht, Htok, Husr.
  reflexivity.
Qed.

End SignInPaths.

Lemma press_Continue_agent (user token id : jsvalue) (w : SignIn.state * list event) :
  get user (lit "id") = Normal id ->
  SignIn.press (Continue (lit "agent") user token) w =
  (Normal tt,
   (fst w,
    snd w ++ [Navigate (lit "AgentChat")
                (VObj [(lit "agentId", id); (lit "token", token)])])).
Proof.
  intros Hid. unfold SignIn.press, SignIn.onPressContinue.
  replace (jsstring_eqb (lit "agent") (lit "agent")) with true
    by (symmetry; apply jsstring_eqb_true; reflexivity).
  run_handler. rewrite Hid. reflexivity.
Qed.

Lemma press_Continue_other (role : jsstring) (user token : jsvalue)
  (w : SignIn.state * list event) :
  role <> lit "agent" ->
  SignIn.press (Continue role user token) w =
  (Normal tt,
   (fst w,
    snd w ++ [Navigate (lit "Dashboard") (VObj [(lit "role", VStr role)])])).
Proof.
  intros Hr. unfold SignIn.press, SignIn.onPressContinue.
  apply jsstring_eqb_false in Hr. rewrite Hr. reflexivity.
Qed.

(** ** The scenarios of the specification, run *)

Example scenario_A :
  SignUp.submit Scenario.server_created Scenario.jane =
  SignUp.finished Scenario.jane SignUp.msg_created
    (party_mark ++ lit " Success!")
    (VStr SignUp.txt_created)
    [ {| text := lit "Sign In Now"; onPress := SignInNow |} ].
Proof. reflexivity. Qed.

Example scenario_B :
  SignIn.submit Scenario.login_t1 Scenario.bad_email =
  SignIn.rejected Scenario.bad_email SignIn.msg_invalid_email
    (lit "Invalid Email") (lit "Please enter a valid email address.").
Proof. reflexivity. Qed.

Example scenario_C :
  SignIn.submit Scenario.login_t1 Scenario.agent =
  SignIn.finished (Normal tt) Scenario.agent SignIn.msg_success
    (party_mark ++ lit " Welcome Back!")
    (VStr (lit "You're now signed in as agent."))
    [ {| text := lit "Continue";
         onPress := Continue (lit "agent") Scenario.user_u1
                      (VStr (lit "t1")) |} ].
Proof. reflexivity. Qed.

Example scenario_D :
  SignUp.submit Scenario.server_already_registered Scenario.jane =
  SignUp.finished Scenario.jane
    (cross_mark ++ lit " This email is already registered. Please sign in or use a different email.")
    (lit "Registration Failed") (VStr SignUp.msg_already_registered) [].
Proof. reflexivity. Qed.

Example scenario_E :
  SignUp.submit Scenario.network_down Scenario.jane =
  SignUp.finished Scenario.jane SignUp.msg_connection (lit "Connection Error")
    (VStr SignUp.txt_connection)
    [].
Proof. reflexivity. Qed.

(** ** Validation comes first *)

(** The four ways the validation of a registration can go. *)
Lemma signup_cases (fetch : jsstring -> request -> fetch_outcome)
  (p : SignUp.state) :
  (SignUp.missing p = true /\
   SignUp.submit fetch p =
   SignUp.rejected p SignUp.msg_missing (lit "Missing Information")
     (lit "Please fill in all fields before signing up.")) \/
  (SignUp.missing p = false /\
   test emailRegex (SignUp.email p) = false /\
   SignUp.submit fetch p =
   SignUp.rejected p SignUp.msg_invalid_email (lit "Invalid Email")
     (lit "Please enter a valid email address.")) \/
  (SignUp.missing p = false /\
   test emailRegex (SignUp.email p) = true /\
   List.length (SignUp.password p) < 6 /\
   SignUp.submit fetch p =
   SignUp.rejected p SignUp.msg_weak_password (lit "Weak Password")
     (lit "Password must be at least 6 characters long.")) \/
  Spec.registration_valid p.
Proof.
  destruct (SignUp.missing p) eqn:H.
  { left. split; [reflexivity | apply signup_path_missing, H]. }
  destruct (test emailRegex (SignUp.email p)) eqn:He.
  2:{ right; left. repeat split. apply signup_path_invalid_email; assumption. }
  destruct (Nat.ltb (List.length (SignUp.password p)) 6) eqn:Hp.
  { right; right; left. repeat split.
    - apply Nat.ltb_lt, Hp.
    - apply signup_path_weak_password; assumption. }
  right; right; right. apply registration_valid_checks. auto.
Qed.

(** The three ways the validation of a login can go. *)
Lemma signin_cases (login : jsstring -> jsstring -> jsstring -> login_outcome)
  (p : SignIn.state) :
  (SignIn.missing p = true /\
   SignIn.submit login p =
   SignIn.rejected p SignIn.msg_missing (lit "Missing Information")
     (lit "Please enter both email and password.")) \/
  (SignIn.missing p = false /\
   test emailRegex (SignIn.email p) = false /\
   SignIn.submit login p =
   SignIn.rejected p SignIn.msg_invalid_email (lit "Invalid Email")
     (lit "Please enter a valid email address.")) \/
  Spec.login_valid p.
Proof.
  destruct (SignIn.missing p) eqn:H.
  { left. split; [reflexivity | apply signin_path_missing, H]. }
  destruct (test emailRegex (SignIn.email p)) eqn:He.
  2:{ right; left. repeat split. apply signin_path_invalid_email; assumption. }
  right; right. apply login_valid_checks. auto.
Qed.

(** C1. On either screen the gateway is invoked only when every local
    validation has passed: a trace of [handleSignUp] holds a [Fetch], and a
    trace of [handleSignIn] a [Login], only for a valid form.  When a
    required field is empty the handler sets the missing-fields status,
    raises one alert and returns, and its trace holds no call of the
    gateway. *)
Theorem gateway_only_after_validation :
  (forall (fetch : jsstring -> request -> fetch_outcome) (p : SignUp.state),
      (existsb is_gateway (snd (snd (SignUp.submit fetch p))) = true ->
       Spec.registration_valid p) /\
      (SignUp.fullName p = [] \/ SignUp.email p = [] \/
       SignUp.password p = [] \/ SignUp.phone p = [] \/
       SignUp.nationalID p = [] \/ SignUp.role p = [] ->
       SignUp.submit fetch p =
       SignUp.rejected p SignUp.msg_missing (lit "Missing Information")
         (lit "Please fill in all fields before signing up.") /\
       existsb is_gateway (snd (snd (SignUp.submit fetch p))) = false)) /\
  (forall (login : jsstring -> jsstring -> jsstring -> login_outcome)
          (p : SignIn.state),
      (existsb is_gateway (snd (snd (SignIn.submit login p))) = true ->
       Spec.login_valid p) /\
      (SignIn.email p = [] \/ SignIn.password p = [] ->
       SignIn.submit login p =
       SignIn.rejected p SignIn.msg_missing (lit "Missing Information")
         (lit "Please enter both email and password.") /\
       existsb is_gateway (snd (snd (SignIn.submit login p))) = false)).
Proof.
  split.
  - intros fetch p. split.
    + intros Hgw.
      destruct (signup_cases fetch p)
        as [[_ E] | [(_ & _ & E) | [(_ & _ & _ & E) | Hv]]];
        try exact Hv; rewrite E in Hgw; discriminate Hgw.
    + intros Hempty. apply signup_missing_true in Hempty.
      rewrite (signup_path_missing fetch p Hempty). split; reflexivity.
  - intros login p. split.
    + intros Hgw.
      destruct (signin_cases login p) as [[_ E] | [(_ & _ & E) | Hv]];
        try exact Hv; rewrite E in Hgw; discriminate Hgw.
    + intros Hempty. apply signin_missing_true in Hempty.
      rewrite (signin_path_missing login p Hempty). split; reflexivity.
Qed.

Lemma gateway_only_after_validation_witness :
  (Spec.registration_valid Scenario.jane /\
   existsb is_gateway
     (snd (snd (SignUp.submit Scenario.server_created Scenario.jane_short)))
   = false) /\
  (Spec.login_valid Scenario.agent /\
   existsb is_gateway
     (snd (snd (SignIn.submit Scenario.login_t1 Scenario.bad_email_no_password)))
   = false).
Proof.
  split; split.
  - apply (proj1 (proj1 gateway_only_after_validation
                    Scenario.network_down Scenario.jane)).
    vm_compute. reflexivity.
  - apply (proj2 (proj1 gateway_only_after_validation
                    Scenario.server_created Scenario.jane_short)).
    right; right; right; left. reflexivity.
  - apply (proj1 (proj2 gateway_only_after_validation
                    Scenario.login_t1 Scenario.agent)).
    vm_compute. reflexivity.
  - apply (proj2 (proj2 gateway_only_after_validation
                    Scenario.login_t1 Scenario.bad_email_no_password)).
    right. reflexivity.
Defined.

(** ** Every attempt that reaches the gateway comes back *)

Lemma signup_valid_finished (fetch : jsstring -> request -> fetch_outcome)
  (p : SignUp.state) :
  Spec.registration_valid p ->
  exists m title msg buttons,
    SignUp.submit fetch p = SignUp.finished p m title msg buttons.
Proof.
  intros Hv.
  destruct (fetch SignUp.register_url (SignUp.register_init p))
    as [e | r] eqn:Hf.
  { do 4 eexists. eapply signup_path_rejects; eassumption. }
  destruct (resp_body r) as [data | ] eqn:Hb.
  2:{ do 4 eexists. eapply signup_path_not_json; eassumption. }
  destruct (ok r) eqn:Hok.
  - do 4 eexists. eapply signup_path_ok; eassumption.
  - destruct (signup_path_not_ok fetch Hv Hf Hok) as (m & title & msg & E).
    do 4 eexists. exact E.
Qed.

Lemma signin_valid_finished
  (login : jsstring -> jsstring -> jsstring -> login_outcome)
  (p : SignIn.state) :
  Spec.login_valid p ->
  exists c m title msg buttons,
    SignIn.submit login p = SignIn.finished c p m title msg buttons.
Proof.
  intros Hv.
  destruct (login (SignIn.email p) (SignIn.password p) (SignIn.role p))
    as [e | data] eqn:Hl.
  { do 5 eexists. eapply signin_path_rejects; eassumption. }
  destruct (truthy data) eqn:Ht.
  2:{ do 5 eexists. eapply signin_path_falsy; eassumption. }
  destruct (get_truthy data (lit "token") Ht) as [token Htok].
  destruct (get_truthy data (lit "user") Ht) as [user Husr].
  do 5 eexists. eapply signin_path_success; eassumption.
Qed.

(** C2. An attempt that passes the local validation sets [loading] before
    it calls the gateway and resets it as its last effect, whatever the
    gateway does: the trace is the clearing of the status text,
    [setLoading(true)], the progress text, the call, then one status text
    and one alert, then [setLoading(false)]; the state it leaves has
    [loading] false.  The gateway is any function here, so it may resolve
    to a success or a failure or reject. *)
Theorem loading_set_before_and_reset_after :
  (forall (fetch : jsstring -> request -> fetch_outcome) (p : SignUp.state),
      Spec.registration_valid p ->
      exists c m title msg buttons,
        SignUp.submit fetch p =
        (c,
         (SignUp.with_ui p false m,
          [SetText StatusMessage []; SetFlag Loading true;
           SetText StatusMessage SignUp.msg_creating;
           Fetch SignUp.register_url (SignUp.register_init p);
           SetText StatusMessage m; Alert title msg buttons;
           SetFlag Loading false])) /\
        SignUp.loading (fst (snd (SignUp.submit fetch p))) = false) /\
  (forall (login : jsstring -> jsstring -> jsstring -> login_outcome)
          (p : SignIn.state),
      Spec.login_valid p ->
      exists c m title msg buttons,
        SignIn.submit login p =
        (c,
         (SignIn.with_ui p false m,
          [SetText Message []; SetFlag Loading true;
           SetText Message SignIn.msg_signing_in;
           Login (SignIn.email p) (SignIn.password p) (SignIn.role p);
           SetText Message m; Alert title msg buttons;
           SetFlag Loading false])) /\
        SignIn.loading (fst (snd (SignIn.submit login p))) = false).
Proof.
  split.
  - intros fetch p Hv.
    destruct (signup_valid_finished fetch Hv) as (m & title & msg & bs & E).
    exists (Normal tt), m, title, msg, bs. rewrite E. split; reflexivity.
  - intros login p Hv.
    destruct (signin_valid_finished login Hv) as (c & m & title & msg & bs & E).
    exists c, m, title, msg, bs. rewrite E. split; reflexivity.
Qed.

Lemma registration_valid_jane : Spec.registration_valid Scenario.jane.
Proof. apply registration_valid_checks. repeat split. Qed.

Lemma login_valid_agent : Spec.login_valid Scenario.agent.
Proof. apply login_valid_checks. repeat split. Qed.

Lemma login_valid_carrier : Spec.login_valid Scenario.carrier.
Proof. apply login_valid_checks. repeat split. Qed.

Lemma loading_set_before_and_reset_after_witness :
  (Spec.registration_valid Scenario.jane /\
   SignUp.loading
     (fst (snd (SignUp.submit Scenario.network_down Scenario.jane))) = false) /\
  (Spec.login_valid Scenario.agent /\
   SignIn.loading
     (fst (snd (SignIn.submit Scenario.login_null Scenario.agent))) = false).
Proof.
  split; split.
  - exact registration_valid_jane.
  - destruct (proj1 loading_set_before_and_reset_after
                Scenario.network_down Scenario.jane registration_valid_jane)
      as (c & m & title & msg & bs & _ & H).
    exact H.
  - exact login_valid_agent.
  - destruct (proj2 loading_set_before_and_reset_after
                Scenario.login_null Scenario.agent login_valid_agent)
      as (c & m & title & msg & bs & _ & H).
    exact H.
Defined.

(** ** The email check *)

(** As the claim C3 words it, an email that lacks the shape [x@y.z] would
    be answered by the invalid-email error whatever the other fields hold.
    A login with the email [bad-email] and no password is answered by the
    missing-fields error instead: the check of line 48 comes first. *)
Lemma invalid_email_hidden_by_missing_field :
  ~ Spec.email_shape (SignIn.email Scenario.bad_email_no_password) /\
  SignIn.submit Scenario.login_null Scenario.bad_email_no_password =
  SignIn.rejected Scenario.bad_email_no_password SignIn.msg_missing
    (lit "Missing Information") (lit "Please enter both email and password.") /\
  SignIn.submit Scenario.login_null Scenario.bad_email_no_password <>
  SignIn.rejected Scenario.bad_email_no_password SignIn.msg_invalid_email
    (lit "Invalid Email") (lit "Please enter a valid email address.").
Proof.
  split; [ | split].
  - apply emailRegex_test_not_shape. reflexivity.
  - reflexivity.
  - intros H. vm_compute in H. discriminate H.
Qed.

(** C3, amended. When every required field is filled in and the email
    lacks the shape [x@y.z], the handler answers with the invalid-email
    error: the status text, one alert, and a [return] before the gateway.
    This holds on both screens, whatever the password is. *)
Theorem invalid_email_rejected :
  (forall (fetch : jsstring -> request -> fetch_outcome) (p : SignUp.state),
      Spec.registration_complete p ->
      ~ Spec.email_shape (SignUp.email p) ->
      SignUp.submit fetch p =
      SignUp.rejected p SignUp.msg_invalid_email (lit "Invalid Email")
        (lit "Please enter a valid email address.")) /\
  (forall (login : jsstring -> jsstring -> jsstring -> login_outcome)
          (p : SignIn.state),
      Spec.login_complete p ->
      ~ Spec.email_shape (SignIn.email p) ->
      SignIn.submit login p =
      SignIn.rejected p SignIn.msg_invalid_email (lit "Invalid Email")
        (lit "Please enter a valid email address.")).
Proof.
  split.
  - intros fetch p Hc Hs.
    apply signup_path_invalid_email.
    + apply signup_missing_false, Hc.
    + apply emailRegex_test_not_shape, Hs.
  - intros login p Hc Hs.
    apply signin_path_invalid_email.
    + apply signin_missing_false, Hc.
    + apply emailRegex_test_not_shape, Hs.
Qed.

Lemma invalid_email_rejected_witness :
  (Spec.registration_complete Scenario.jane_bad_email /\
   ~ Spec.email_shape (SignUp.email Scenario.jane_bad_email) /\
   SignUp.statusMessage
     (fst (snd (SignUp.submit Scenario.server_created Scenario.jane_bad_email)))
   = SignUp.msg_invalid_email) /\
  (Spec.login_complete Scenario.bad_email /\
   ~ Spec.email_shape (SignIn.email Scenario.bad_email) /\
   SignIn.message
     (fst (snd (SignIn.submit Scenario.login_t1 Scenario.bad_email)))
   = SignIn.msg_invalid_email).
Proof.
  assert (Hup : Spec.registration_complete Scenario.jane_bad_email)
    by (repeat split; discriminate).
  assert (Hin : Spec.login_complete Scenario.bad_email)
    by (repeat split; discriminate).
  assert (Hbad : ~ Spec.email_shape (lit "bad-email"))
    by (apply emailRegex_test_not_shape; reflexivity).
  split; (split; [assumption | split; [exact Hbad | ]]).
  - rewrite (proj1 invalid_email_rejected Scenario.server_created
               Scenario.jane_bad_email Hup Hbad).
    reflexivity.
  - rewrite (proj2 invalid_email_rejected Scenario.login_t1
               Scenario.bad_email Hin Hbad).
    reflexivity.
Defined.

(** ** The password check *)

(** C7. A registration whose password is shorter than six characters
    never reaches the gateway, whatever the other fields hold: the handler
    returns with the missing-fields, the invalid-email or the weak-password
    error, and its trace holds no call of the gateway. *)
Theorem short_password_rejected
  (fetch : jsstring -> request -> fetch_outcome) (p : SignUp.state) :
  List.length (SignUp.password p) < 6 ->
  (SignUp.submit fetch p =
   SignUp.rejected p SignUp.msg_missing (lit "Missing Information")
     (lit "Please fill in all fields before signing up.") \/
   SignUp.submit fetch p =
   SignUp.rejected p SignUp.msg_invalid_email (lit "Invalid Email")
     (lit "Please enter a valid email address.") \/
   SignUp.submit fetch p =
   SignUp.rejected p SignUp.msg_weak_password (lit "Weak Password")
     (lit "Password must be at least 6 characters long.")) /\
  existsb is_gateway (snd (snd (SignUp.submit fetch p))) = false.
Proof.
  intros Hlen.
  destruct (signup_cases fetch p)
    as [[_ E] | [(_ & _ & E) | [(_ & _ & _ & E) | Hv]]].
  - rewrite E. split; [left | ]; reflexivity.
  - rewrite E. split; [right; left | ]; reflexivity.
  - rewrite E. split; [right; right | ]; reflexivity.
  - destruct Hv as (_ & _ & Hge). lia.
Qed.

Lemma short_password_rejected_witness :
  List.length (SignUp.password Scenario.jane_short) < 6 /\
  existsb is_gateway
    (snd (snd (SignUp.submit Scenario.server_created Scenario.jane_short)))
  = false.
Proof.
  assert (H : List.length (SignUp.password Scenario.jane_short) < 6)
    by (vm_compute; lia).
  split; [exact H | ].
  exact (proj2 (@short_password_rejected Scenario.server_created
                  Scenario.jane_short H)).
Defined.

(** ** The validation is a function of the input strings *)

Lemma signup_rejection_spec (fetch : jsstring -> request -> fetch_outcome)
  (p : SignUp.state) :
  SignUp.rejection (SignUp.submit fetch p) =
  if SignUp.missing p then Some SignUp.msg_missing
  else if test emailRegex (SignUp.email p) then
         if Nat.ltb (List.length (SignUp.password p)) 6
         then Some SignUp.msg_weak_password
         else None
       else Some SignUp.msg_invalid_email.
Proof.
  destruct (signup_cases fetch p)
    as [[H E] | [(H & He & E) | [(H & He & Hp & E) | Hv]]].
  - rewrite E, H. reflexivity.
  - rewrite E, H, He. reflexivity.
  - apply Nat.ltb_lt in Hp. rewrite E, H, He, Hp. reflexivity.
  - destruct (signup_valid_finished fetch Hv) as (m & title & msg & bs & E).
    apply registration_valid_checks in Hv. destruct Hv as (H & He & Hp).
    rewrite E, H, He, Hp. reflexivity.
Qed.

Lemma signin_rejection_spec
  (login : jsstring -> jsstring -> jsstring -> login_outcome)
  (p : SignIn.state) :
  SignIn.rejection (SignIn.submit login p) =
  if SignIn.missing p then Some SignIn.msg_missing
  else if test emailRegex (SignIn.email p) then None
       else Some SignIn.msg_invalid_email.
Proof.
  destruct (signin_cases login p) as [[H E] | [(H & He & E) | Hv]].
  - rewrite E, H. reflexivity.
  - rewrite E, H, He. reflexivity.
  - destruct (signin_valid_finished login Hv)
      as (c & m & title & msg & bs & E).
    apply login_valid_checks in Hv. destruct Hv as (H & He).
    rewrite E, H, He. reflexivity.
Qed.

(** C8. What the validation of an attempt comes to depends on the input
    strings of the form alone, not on the rest of the screen's state nor on
    the network: two attempts on the same strings are answered alike.  A
    rejected attempt changes nothing of the state but the status text, so
    that a second attempt right after it is answered by the same
    completion, state and effects as the first. *)
Theorem validation_is_a_function_of_the_fields :
  (forall (fetch1 fetch2 : jsstring -> request -> fetch_outcome)
          (p1 p2 : SignUp.state),
      SignUp.fields p1 = SignUp.fields p2 ->
      SignUp.rejection (SignUp.submit fetch1 p1) =
      SignUp.rejection (SignUp.submit fetch2 p2)) /\
  (forall (fetch : jsstring -> request -> fetch_outcome)
          (p : SignUp.state) (m : jsstring),
      SignUp.rejection (SignUp.submit fetch p) = Some m ->
      fst (snd (SignUp.submit fetch p)) = SignUp.with_ui p (SignUp.loading p) m /\
      SignUp.submit fetch (fst (snd (SignUp.submit fetch p))) =
      SignUp.submit fetch p) /\
  (forall (login1 login2 : jsstring -> jsstring -> jsstring -> login_outcome)
          (p1 p2 : SignIn.state),
      SignIn.fields p1 = SignIn.fields p2 ->
      SignIn.rejection (SignIn.submit login1 p1) =
      SignIn.rejection (SignIn.submit login2 p2)) /\
  (forall (login : jsstring -> jsstring -> jsstring -> login_outcome)
          (p : SignIn.state) (m : jsstring),
      SignIn.rejection (SignIn.submit login p) = Some m ->
      fst (snd (SignIn.submit login p)) = SignIn.with_ui p (SignIn.loading p) m /\
      SignIn.submit login (fst (snd (SignIn.submit login p))) =
      SignIn.submit login p).
Proof.
  split; [ | split; [ | split]].
  - intros fetch1 fetch2 p1 p2 Hf. rewrite !signup_rejection_spec.
    unfold SignUp.fields in Hf. injection Hf as E1 E2 E3 E4 E5 E6.
    unfold SignUp.missing. rewrite E1, E2, E3, E4, E5, E6. reflexivity.
  - intros fetch p m Hr.
    destruct (signup_cases fetch p)
      as [[H E] | [(H & He & E) | [(H & He & Hp & E) | Hv]]].
    + rewrite E in Hr. injection Hr as <-. rewrite E. split; [reflexivity | ].
      simpl fst. simpl snd.
      rewrite (@signup_path_missing fetch
                 (SignUp.with_ui p (SignUp.loading p) SignUp.msg_missing) H).
      reflexivity.
    + rewrite E in Hr. injection Hr as <-. rewrite E. split; [reflexivity | ].
      simpl fst. simpl snd.
      rewrite (@signup_path_invalid_email fetch
                 (SignUp.with_ui p (SignUp.loading p) SignUp.msg_invalid_email)
                 H He).
      reflexivity.
    + rewrite E in Hr. injection Hr as <-. rewrite E. split; [reflexivity | ].
      simpl fst. simpl snd. apply Nat.ltb_lt in Hp.
      rewrite (@signup_path_weak_password fetch
                 (SignUp.with_ui p (SignUp.loading p) SignUp.msg_weak_password)
                 H He Hp).
      reflexivity.
    + destruct (signup_valid_finished fetch Hv) as (m' & title & msg & bs & E).
      rewrite E in Hr. discriminate Hr.
  - intros login1 login2 p1 p2 Hf. rewrite !signin_rejection_spec.
    unfold SignIn.fields in Hf. injection Hf as E1 E2.
    unfold SignIn.missing. rewrite E1, E2. reflexivity.
  - intros login p m Hr.
    destruct (signin_cases login p) as [[H E] | [(H & He & E) | Hv]].
    + rewrite E in Hr. injection Hr as <-. rewrite E. split; [reflexivity | ].
      simpl fst. simpl snd.
      rewrite (@signin_path_missing login
                 (SignIn.with_ui p (SignIn.loading p) SignIn.msg_missing) H).
      reflexivity.
    + rewrite E in Hr. injection Hr as <-. rewrite E. split; [reflexivity | ].
      simpl fst. simpl snd.
      rewrite (@signin_path_invalid_email login
                 (SignIn.with_ui p (SignIn.loading p) SignIn.msg_invalid_email)
                 H He).
      reflexivity.
    + destruct (signin_valid_finished login Hv)
        as (c & m' & title & msg & bs & E).
      rewrite E in Hr. discriminate Hr.
Qed.

Lemma validation_is_a_function_of_the_fields_witness :
  (SignUp.fields Scenario.jane_short =
   SignUp.fields (SignUp.with_ui Scenario.jane_short true SignUp.msg_creating) /\
   SignUp.rejection (SignUp.submit Scenario.server_created Scenario.jane_short) =
   SignUp.rejection
     (SignUp.submit Scenario.network_down
        (SignUp.with_ui Scenario.jane_short true SignUp.msg_creating))) /\
  (SignIn.rejection (SignIn.submit Scenario.login_t1 Scenario.bad_email) =
   Some SignIn.msg_invalid_email /\
   SignIn.submit Scenario.login_t1
     (fst (snd (SignIn.submit Scenario.login_t1 Scenario.bad_email))) =
   SignIn.submit Scenario.login_t1 Scenario.bad_email).
Proof.
  assert (Hf : SignUp.fields Scenario.jane_short =
               SignUp.fields
                 (SignUp.with_ui Scenario.jane_short true SignUp.msg_creating))
    by reflexivity.
  assert (Hr : SignIn.rejection
                 (SignIn.submit Scenario.login_t1 Scenario.bad_email) =
               Some SignIn.msg_invalid_email)
    by reflexivity.
  split; split.
  - exact Hf.
  - exact (proj1 validation_is_a_function_of_the_fields
             Scenario.server_created Scenario.network_down _ _ Hf).
  - exact Hr.
  - exact (proj2 (proj2 (proj2 (proj2 validation_is_a_function_of_the_fields))
                    Scenario.login_t1 Scenario.bad_email _ Hr)).
Defined.

(** ** The answer of the registration gateway *)

Lemma starts_with_spec (p s : jsstring) :
  starts_with p s = true <-> exists b, s = p ++ b.
Proof.
  revert s. induction p as [ | a p' IH]; intros s; simpl.
  - split; [intros _; exists s; reflexivity | reflexivity].
  - destruct s as [ | c s'].
    + split; [discriminate | intros [b Hb]; discriminate Hb].
    + rewrite andb_true_iff, N.eqb_eq, IH. split.
      * intros [-> [b ->]]. exists b. reflexivity.
      * intros [b Hb]. injection Hb as -> ->. split; [reflexivity | eauto].
Qed.

(** [includes] finds exactly the substrings. *)
Lemma includes_spec (s p : jsstring) :
  includes s p = true <-> exists a b, s = a ++ p ++ b.
Proof.
  induction s as [ | c s' IH]; simpl; rewrite orb_true_iff, starts_with_spec.
  - split.
    + intros [[b Hb] | H]; [exists [], b; exact Hb | discriminate H].
    + intros (a & b & H). left. destruct a; [ | discriminate H].
      exists b. exact H.
  - rewrite IH. split.
    + intros [[b Hb] | (a & b & ->)].
      * exists [], b. exact Hb.
      * exists (c :: a), b. reflexivity.
    + intros (a & b & H). destruct a as [ | c' a'].
      * left. exists b. exact H.
      * right. injection H as _ ->. eauto.
Qed.

Lemma ok_false_spec (r : response) :
  ok r = false <-> (status r < 200 \/ 299 < status r)%N.
Proof.
  unfold ok. rewrite andb_false_iff, !N.leb_gt. tauto.
Qed.

Lemma ok_true_spec (r : response) :
  ok r = true <-> (200 <= status r <= 299)%N.
Proof.
  unfold ok. rewrite andb_true_iff, !N.leb_le. tauto.
Qed.

(** C4. When the server answers a registration with a status outside
    200-299, the attempt ends in failure: a status text that starts with
    the cross mark, one alert without a button, [loading] false.  When the
    body carries a message (a string that is not empty), the text shown is
    that message, or the friendlier text when the message contains
    [Email already registered]. *)
Theorem registration_failure_reported
  (fetch : jsstring -> request -> fetch_outcome) (p : SignUp.state)
  (r : response) :
  Spec.registration_valid p ->
  fetch SignUp.register_url (SignUp.register_init p) = FetchResolves r ->
  (status r < 200 \/ 299 < status r)%N ->
  (exists m title msg,
      SignUp.submit fetch p = SignUp.finished p (cross_mark ++ m) title msg []) /\
  SignUp.loading (fst (snd (SignUp.submit fetch p))) = false /\
  (forall data m,
      resp_body r = Some data ->
      get data (lit "message") = Normal (VStr m) ->
      m <> [] ->
      exists shown,
        SignUp.submit fetch p =
        SignUp.finished p (cross_mark ++ lit " " ++ shown)
          (lit "Registration Failed") (VStr shown) [] /\
        ((exists a b, m = a ++ lit "Email already registered" ++ b) ->
         shown = SignUp.msg_already_registered) /\
        (~ (exists a b, m = a ++ lit "Email already registered" ++ b) ->
         shown = m)).
Proof.
  intros Hv Hf Hst. apply ok_false_spec in Hst.
  destruct (signup_path_not_ok fetch Hv Hf Hst) as (m0 & title & msg & E).
  split; [ | split].
  - exists m0, title, msg. exact E.
  - rewrite E. reflexivity.
  - intros data m Hb Hm Hne. exists (SignUp.shown_message m).
    split; [ | split].
    + apply (signup_path_message fetch Hv Hf Hb Hst Hm Hne).
    + intros Hin. apply includes_spec in Hin.
      unfold SignUp.shown_message. rewrite Hin. reflexivity.
    + intros Hnot. unfold SignUp.shown_message.
      destruct (includes m (lit "Email already registered")) eqn:Hin;
        [ | reflexivity].
      apply includes_spec in Hin. contradiction.
Qed.

Lemma registration_failure_reported_witness :
  Spec.registration_valid Scenario.jane /\
  (299 < 400)%N /\
  SignUp.submit Scenario.server_already_registered Scenario.jane =
  SignUp.finished Scenario.jane
    (cross_mark ++ lit " " ++ SignUp.msg_already_registered)
    (lit "Registration Failed") (VStr SignUp.msg_already_registered) [].
Proof.
  assert (Hst : (299 < 400)%N) by reflexivity.
  split; [exact registration_valid_jane | split; [exact Hst | ]].
  destruct (@registration_failure_reported
              Scenario.server_already_registered Scenario.jane
              {| status := 400;
                 resp_body :=
                   Some (VObj [(lit "message",
                                VStr (lit "Email already registered"))]) |}
              registration_valid_jane eq_refl (or_intror Hst))
    as (_ & _ & H).
  destruct (H (VObj [(lit "message", VStr (lit "Email already registered"))])
              (lit "Email already registered") eq_refl eq_refl)
    as (shown & E & Hin & _).
  - discriminate.
  - rewrite <- (Hin (ex_intro _ [] (ex_intro _ [] eq_refl))). exact E.
Defined.

(** The closure of the success alert empties the form and navigates. *)
Lemma press_SignInNow (w : SignUp.state * list event) :
  SignUp.press SignInNow w =
  (Normal tt,
   (SignUp.cleared (fst w),
    snd w ++ [SetText FullName []; SetText Email []; SetText Password [];
              SetText Phone []; SetText NationalID []; SetText Role [];
              Navigate (lit "SignIn") VUndefined])).
Proof.
  destruct w as [[f e pw ph n r l sp sm] tr].
  unfold SignUp.press, SignUp.onPressSignInNow. cbn -[lit].
  unfold navigate, emit. cbn [fst snd].
  rewrite <- !app_assoc. reflexivity.
Qed.

(** As the claim C5 words it, every answer with a status in 200-299 would
    lead to the success alert.  An answer 204 with an empty body does not:
    [response.json()] is awaited before [response.ok] is looked at, its
    rejection lands in the [catch], and the attempt ends with the
    connection error and an alert without a button. *)
Lemma created_without_body_is_a_connection_error :
  Spec.registration_valid Scenario.jane /\
  Scenario.server_no_content SignUp.register_url
    (SignUp.register_init Scenario.jane) =
  FetchResolves {| status := 204; resp_body := None |} /\
  ok {| status := 204; resp_body := None |} = true /\
  SignUp.submit Scenario.server_no_content Scenario.jane =
  SignUp.finished Scenario.jane SignUp.msg_connection (lit "Connection Error")
    (VStr SignUp.txt_connection)
    [] /\
  SignUp.submit Scenario.server_no_content Scenario.jane <>
  SignUp.finished Scenario.jane SignUp.msg_created
    (party_mark ++ lit " Success!")
    (VStr SignUp.txt_created)
    [ {| text := lit "Sign In Now"; onPress := SignInNow |} ].
Proof.
  split; [exact registration_valid_jane | ].
  split; [reflexivity | ].
  split; [reflexivity | ].
  split; [reflexivity | ].
  intros H. vm_compute in H. discriminate H.
Qed.

(** C5, amended. When every field of a registration is valid and the
    server answers with a status in 200-299 and a body that parses as
    JSON, the attempt ends in success: the success text, [loading] false,
    and one alert whose only button is Sign In Now.  Pressing that button
    empties the six fields of the form and navigates to SignIn. *)
Theorem registration_success_navigates
  (fetch : jsstring -> request -> fetch_outcome) (p : SignUp.state)
  (r : response) (data : jsvalue) :
  Spec.registration_valid p ->
  fetch SignUp.register_url (SignUp.register_init p) = FetchResolves r ->
  (200 <= status r <= 299)%N ->
  resp_body r = Some data ->
  SignUp.submit fetch p =
  SignUp.finished p SignUp.msg_created (party_mark ++ lit " Success!")
    (VStr SignUp.txt_created)
    [ {| text := lit "Sign In Now"; onPress := SignInNow |} ] /\
  forall w : SignUp.state * list event,
    SignUp.press SignInNow w =
    (Normal tt,
     (SignUp.cleared (fst w),
      snd w ++ [SetText FullName []; SetText Email []; SetText Password [];
                SetText Phone []; SetText NationalID []; SetText Role [];
                Navigate (lit "SignIn") VUndefined])) /\
    SignUp.fields (SignUp.cleared (fst w)) = [[]; []; []; []; []; []].
Proof.
  intros Hv Hf Hst Hb. apply ok_true_spec in Hst. split.
  - apply (signup_path_ok fetch Hv Hf Hb Hst).
  - intros w. split; [apply press_SignInNow | reflexivity].
Qed.

Lemma registration_success_navigates_witness :
  Spec.registration_valid Scenario.jane /\
  (200 <= 201 <= 299)%N /\
  SignUp.submit Scenario.server_created Scenario.jane =
  SignUp.finished Scenario.jane SignUp.msg_created
    (party_mark ++ lit " Success!")
    (VStr SignUp.txt_created)
    [ {| text := lit "Sign In Now"; onPress := SignInNow |} ].
Proof.
  assert (Hst : (200 <= 201 <= 299)%N) by (split; discriminate).
  split; [exact registration_valid_jane | split; [exact Hst | ]].
  exact (proj1 (@registration_success_navigates
                  Scenario.server_created Scenario.jane
                  {| status := 201;
                     resp_body :=
                       Some (VObj [(lit "message",
                                    VStr (lit "User registered"))]) |}
                  _ registration_valid_jane eq_refl Hst eq_refl)).
Defined.

(** ** The answer of the login gateway *)

(** With a [user] that is [null] or [undefined], the closure of the
    Continue button throws before it navigates. *)
Lemma press_Continue_agent_without_user (user token : jsvalue) (e : jserror)
  (w : SignIn.state * list event) :
  get user (lit "id") = Throw e ->
  SignIn.press (Continue (lit "agent") user token) w = (Throw e, w).
Proof.
  intros Hid. unfold SignIn.press, SignIn.onPressContinue.
  replace (jsstring_eqb (lit "agent") (lit "agent")) with true
    by (symmetry; apply jsstring_eqb_true; reflexivity).
  run_handler. rewrite Hid. reflexivity.
Qed.

(** C6. After a successful login (the gateway resolves to a truthy value,
    [token] and [user] being its properties of these names) the attempt
    ends with the success text and one alert whose only button is
    Continue.  Pressing it navigates: when the selected role is [agent],
    to AgentChat with the parameters [agentId], the [id] of the user, and
    [token]; for every other role, to Dashboard with the parameter [role]
    alone. *)
Theorem login_success_navigates
  (login : jsstring -> jsstring -> jsstring -> login_outcome)
  (p : SignIn.state) (data token user : jsvalue) :
  Spec.login_valid p ->
  login (SignIn.email p) (SignIn.password p) (SignIn.role p)
    = LoginResolves data ->
  truthy data = true ->
  get data (lit "token") = Normal token ->
  get data (lit "user") = Normal user ->
  SignIn.submit login p =
  SignIn.finished (Normal tt) p SignIn.msg_success
    (party_mark ++ lit " Welcome Back!")
    (VStr (lit "You're now signed in as " ++ SignIn.role p ++ lit "."))
    [ {| text := lit "Continue";
         onPress := Continue (SignIn.role p) user token |} ] /\
  (SignIn.role p = lit "agent" ->
   forall (id : jsvalue) (w : SignIn.state * list event),
     get user (lit "id") = Normal id ->
     SignIn.press (Continue (SignIn.role p) user token) w =
     (Normal tt,
      (fst w,
       snd w ++ [Navigate (lit "AgentChat")
                   (VObj [(lit "agentId", id); (lit "token", token)])]))) /\
  (SignIn.role p <> lit "agent" ->
   forall w : SignIn.state * list event,
     SignIn.press (Continue (SignIn.role p) user token) w =
     (Normal tt,
      (fst w,
       snd w ++ [Navigate (lit "Dashboard")
                   (VObj [(lit "role", VStr (SignIn.role p))])]))).
Proof.
  intros Hv Hl Ht Htok Husr. split; [ | split].
  - apply (signin_path_success login Hv Hl Ht Htok Husr).
  - intros Hr id w Hid. rewrite Hr. apply press_Continue_agent, Hid.
  - intros Hr w. apply press_Continue_other, Hr.
Qed.

Lemma login_success_navigates_witness :
  (Spec.login_valid Scenario.agent /\
   SignIn.press
     (Continue (lit "agent") Scenario.user_u1 (VStr (lit "t1")))
     (SignIn.initial, []) =
   (Normal tt,
    (SignIn.initial,
     [Navigate (lit "AgentChat")
        (VObj [(lit "agentId", VStr (lit "u1"));
               (lit "token", VStr (lit "t1"))])]))) /\
  (Spec.login_valid Scenario.carrier /\
   lit "carrier" <> lit "agent" /\
   SignIn.press
     (Continue (lit "carrier") Scenario.user_u1 (VStr (lit "t1")))
     (SignIn.initial, []) =
   (Normal tt,
    (SignIn.initial,
     [Navigate (lit "Dashboard")
        (VObj [(lit "role", VStr (lit "carrier"))])]))).
Proof.
  assert (Hne : lit "carrier" <> lit "agent") by discriminate.
  split; [split; [exact login_valid_agent | ]
         | split; [exact login_valid_carrier | split; [exact Hne | ]]].
  - exact (proj1 (proj2 (@login_success_navigates
                           Scenario.login_t1 Scenario.agent
                           (VObj [(lit "token", VStr (lit "t1"));
                                  (lit "user", Scenario.user_u1)])
                           (VStr (lit "t1")) Scenario.user_u1
                           login_valid_agent eq_refl eq_refl eq_refl eq_refl))
             eq_refl (VStr (lit "u1")) (SignIn.initial, []) eq_refl).
  - exact (proj2 (proj2 (@login_success_navigates
                           Scenario.login_t1 Scenario.carrier
                           (VObj [(lit "token", VStr (lit "t1"));
                                  (lit "user", Scenario.user_u1)])
                           (VStr (lit "t1")) Scenario.user_u1
                           login_valid_carrier eq_refl eq_refl eq_refl eq_refl))
             Hne (SignIn.initial, [])).
Defined.

(** C9. When the login gateway resolves to a falsy value, the attempt
    ends with the invalid-credentials text and the Login Failed alert,
    whatever the falsy value is and whatever made the gateway yield it.
    Nothing navigates: the trace holds no navigation and none of its
    alerts has a button to press.  [loading] is false at the end. *)
Theorem falsy_login_reported_as_invalid_credentials
  (login : jsstring -> jsstring -> jsstring -> login_outcome)
  (p : SignIn.state) (data : jsvalue) :
  Spec.login_valid p ->
  login (SignIn.email p) (SignIn.password p) (SignIn.role p)
    = LoginResolves data ->
  truthy data = false ->
  SignIn.submit login p =
  SignIn.finished Return p SignIn.msg_invalid_credentials (lit "Login Failed")
    (VStr (lit "Invalid email or password. Please try again.")) [] /\
  existsb is_navigate (snd (snd (SignIn.submit login p))) = false /\
  (forall n i, SignIn.the_button (snd (snd (SignIn.submit login p))) n i = None) /\
  SignIn.loading (fst (snd (SignIn.submit login p))) = false.
Proof.
  intros Hv Hl Ht.
  rewrite (signin_path_falsy login Hv Hl Ht).
  split; [reflexivity | split; [reflexivity | split; [ | reflexivity]]].
  intros n i. unfold SignIn.the_button, SignIn.finished. simpl snd.
  do 7 (destruct n as [ | n]; [try reflexivity; destruct i; reflexivity | ]).
  destruct n; reflexivity.
Qed.

Lemma falsy_login_reported_as_invalid_credentials_witness :
  Spec.login_valid Scenario.agent /\
  truthy VNull = false /\
  SignIn.message
    (fst (snd (SignIn.submit Scenario.login_null Scenario.agent))) =
  SignIn.msg_invalid_credentials.
Proof.
  split; [exact login_valid_agent | split; [reflexivity | ]].
  rewrite (proj1 (@falsy_login_reported_as_invalid_credentials
                    Scenario.login_null Scenario.agent VNull
                    login_valid_agent eq_refl eq_refl)).
  reflexivity.
Defined.

(** ** The role of the sign-in screen *)

Ltac close_world :=
  do 3 eexists;
  split; [rewrite <- ?app_assoc; reflexivity
         | split; [reflexivity | repeat constructor]].

(** Whatever world it starts in, [handleSignIn] only appends to the trace,
    leaves the role alone, and calls the gateway with the role of the
    render. *)
Lemma handleSignIn_world
  (login : jsstring -> jsstring -> jsstring -> login_outcome)
  (p s : SignIn.state) (tr : list event) :
  exists c s' evs,
    SignIn.handleSignIn login p (s, tr) = (c, (s', tr ++ evs)) /\
    SignIn.role s' = SignIn.role s /\
    Forall (fun e => match e with
                     | Login _ _ r => r = SignIn.role p
                     | _ => True
                     end) evs.
Proof.
  unfold SignIn.handleSignIn.
  destruct (str_falsy (SignIn.email p) || str_falsy (SignIn.password p)).
  { run_handler. close_world. }
  destruct (test emailRegex (SignIn.email p)).
  2:{ unfold negb. run_handler. close_world. }
  unfold negb. run_handler.
  destruct (login (SignIn.email p) (SignIn.password p) (SignIn.role p))
    as [e | data].
  { close_world. }
  destruct (truthy data) eqn:Ht.
  2:{ close_world. }
  destruct (get_truthy data (lit "token") Ht) as [token Htok].
  destruct (get_truthy data (lit "user") Ht) as [user Husr].
  rewrite Htok, Husr. close_world.
Qed.

Lemma press_world (cb : callback) (s : SignIn.state) (tr : list event) :
  exists c evs,
    SignIn.press cb (s, tr) = (c, (s, tr ++ evs)) /\
    Forall SignIn.login_role_in_enum evs.
Proof.
  destruct cb as [ | role user token]; unfold SignIn.press.
  - exists (Normal tt), []. rewrite app_nil_r. split; [reflexivity | constructor].
  - unfold SignIn.onPressContinue.
    destruct (jsstring_eqb role (lit "agent")).
    + run_handler. destruct (get user (lit "id")) as [id | | e].
      * do 2 eexists. split; [reflexivity | repeat constructor].
      * exists Return, []. rewrite app_nil_r. split; [reflexivity | constructor].
      * exists (Throw e), []. rewrite app_nil_r.
        split; [reflexivity | constructor].
    + do 2 eexists. split; [reflexivity | repeat constructor].
Qed.

Lemma roles_nth (i : nat) (r : jsstring) :
  nth_error SignIn.roles i = Some r -> In r SignIn.roles.
Proof. apply nth_error_In. Qed.

Lemma step_role_invariant
  (login : jsstring -> jsstring -> jsstring -> login_outcome)
  (w : SignIn.state * list event) (a : SignIn.action) :
  SignIn.role_invariant w -> SignIn.role_invariant (SignIn.step login w a).
Proof.
  destruct w as [s tr]. unfold SignIn.role_invariant, SignIn.step.
  cbn [fst snd]. intros [Hr Htr].
  assert (Hsnoc : forall e, SignIn.login_role_in_enum e ->
                            Forall SignIn.login_role_in_enum (tr ++ [e])).
  { intros e He. apply Forall_app. split; [assumption | repeat constructor].
    exact He. }
  destruct a as [t | t | i | | | n i | ]; unfold SignIn.handler_of.
  - split; [exact Hr | apply Hsnoc; exact I].
  - split; [exact Hr | apply Hsnoc; exact I].
  - destruct (nth_error SignIn.roles i) as [r | ] eqn:Hi.
    + split; [exact (roles_nth i Hi) | apply Hsnoc; exact I].
    + split; [exact Hr | exact Htr].
  - split; [exact Hr | apply Hsnoc; exact I].
  - cbn [fst snd]. destruct (SignIn.loading s); [split; [exact Hr | exact Htr] | ].
    destruct (handleSignIn_world login s s tr) as (c & s' & evs & E & Hs' & Hev).
    rewrite E. simpl. split; [rewrite Hs'; exact Hr | ].
    apply Forall_app. split; [assumption | ].
    apply Forall_forall. intros e He.
    rewrite Forall_forall in Hev. specialize (Hev e He).
    destruct e; simpl; try exact I. rewrite Hev. exact Hr.
  - cbn [fst snd]. destruct (SignIn.the_button tr n i) as [cb | ].
    + destruct (press_world cb s tr) as (c & evs & E & Hev).
      rewrite E. simpl. split; [exact Hr | ].
      apply Forall_app. split; assumption.
    + split; [exact Hr | exact Htr].
  - split; [exact Hr | apply Hsnoc; exact I].
Qed.

Lemma fold_role_invariant
  (login : jsstring -> jsstring -> jsstring -> login_outcome)
  (acts : list SignIn.action) :
  forall w, SignIn.role_invariant w ->
            SignIn.role_invariant (fold_left (SignIn.step login) acts w).
Proof.
  induction acts as [ | a acts IH]; intros w Hw; simpl.
  - exact Hw.
  - apply IH, step_role_invariant, Hw.
Qed.

(** C10. On the sign-in screen the role is always one of [sender],
    [carrier], [agent] and [receiver]: after any sequence of actions of the
    user from the first render, the role of the state is one of the four,
    and so is the role of every call of the login gateway so far, which is
    therefore never empty. *)
Theorem signin_role_always_in_enum
  (login : jsstring -> jsstring -> jsstring -> login_outcome)
  (acts : list SignIn.action) :
  In (SignIn.role (fst (SignIn.run login acts))) SignIn.roles /\
  forall e pw r,
    In (Login e pw r) (snd (SignIn.run login acts)) ->
    In r SignIn.roles /\ r <> [].
Proof.
  assert (Hinv : SignIn.role_invariant (SignIn.run login acts)).
  { unfold SignIn.run. apply fold_role_invariant.
    split; [left; reflexivity | constructor]. }
  destruct Hinv as [Hr Htr]. split; [exact Hr | ].
  intros e pw r Hin. rewrite Forall_forall in Htr.
  specialize (Htr _ Hin). simpl in Htr. split; [exact Htr | ].
  intros ->. unfold SignIn.roles in Htr. simpl in Htr.
  repeat (destruct Htr as [Htr | Htr]; [discriminate Htr | ]).
  exact Htr.
Qed.

Lemma signin_role_always_in_enum_witness :
  In (Login (lit "jane@example.com") (lit "secret1") (lit "agent"))
     (snd (SignIn.run Scenario.login_t1
             [SignIn.TypeEmail (lit "jane@example.com");
              SignIn.TypePassword (lit "secret1");
              SignIn.PressRole 2; SignIn.PressSignIn])) /\
  In (lit "agent") SignIn.roles.
Proof.
  assert (H : In (Login (lit "jane@example.com") (lit "secret1") (lit "agent"))
                 (snd (SignIn.run Scenario.login_t1
                         [SignIn.TypeEmail (lit "jane@example.com");
                          SignIn.TypePassword (lit "secret1");
                          SignIn.PressRole 2; SignIn.PressSignIn]))).
  { vm_compute. do 6 right. left. reflexivity. }
  split; [exact H | ].
  exact (proj1 (proj2 (@signin_role_always_in_enum Scenario.login_t1 _) _ _ _ H)).
Defined.

(** * Further properties of the two screens *)

(** ** What [emailRegex] lets through *)

Lemma part_no_at (x : jsstring) :
  Spec.part x -> count_occ N.eq_dec x at_sign = 0.
Proof.
  intros [_ Hall]. induction Hall as [ | c x' [_ Hc] _ IH]; simpl.
  - reflexivity.
  - destruct (N.eq_dec c at_sign) as [E | _]; [contradiction | exact IH].
Qed.

Lemma part_no_space (x : jsstring) :
  Spec.part x -> Forall (fun c => is_space c = false) x.
Proof.
  intros [_ Hall]. induction Hall as [ | c x' [Hc _] _ IH];
    constructor; assumption.
Qed.

Lemma part_length (x : jsstring) : Spec.part x -> 1 <= List.length x.
Proof. intros [Hne _]. destruct x; [congruence | simpl; lia]. Qed.

(** X1. An email that [emailRegex] accepts holds exactly one [@]. *)
Theorem accepted_email_has_one_at (s : jsstring) :
  test emailRegex s = true -> count_occ N.eq_dec s at_sign = 1.
Proof.
  intros H. apply emailRegex_test_shape in H.
  destruct H as (x & y & z & Hx & Hy & Hz & ->).
  rewrite count_occ_app. simpl.
  destruct (N.eq_dec at_sign at_sign) as [_ | Hne]; [ | congruence].
  rewrite count_occ_app. simpl.
  destruct (N.eq_dec full_stop at_sign) as [E | _]; [discriminate E | ].
  rewrite !part_no_at by assumption. reflexivity.
Qed.

Lemma accepted_email_has_one_at_witness :
  test emailRegex (lit "jane@example.com") = true /\
  count_occ N.eq_dec (lit "jane@example.com") at_sign = 1.
Proof.
  assert (H : test emailRegex (lit "jane@example.com") = true) by reflexivity.
  split; [exact H | exact (@accepted_email_has_one_at _ H)].
Defined.

(** X2. An email that [emailRegex] accepts holds no white space, neither
    inside nor at its ends: the handlers do not trim what was typed. *)
Theorem accepted_email_has_no_space (s : jsstring) :
  test emailRegex s = true -> Forall (fun c => is_space c = false) s.
Proof.
  intros H. apply emailRegex_test_shape in H.
  destruct H as (x & y & z & Hx & Hy & Hz & ->).
  apply Forall_app. split; [apply part_no_space, Hx | ].
  constructor; [reflexivity | ].
  apply Forall_app. split; [apply part_no_space, Hy | ].
  constructor; [reflexivity | apply part_no_space, Hz].
Qed.

Lemma accepted_email_has_no_space_witness :
  test emailRegex (lit "jane@example.com") = true /\
  Forall (fun c => is_space c = false) (lit "jane@example.com").
Proof.
  assert (H : test emailRegex (lit "jane@example.com") = true) by reflexivity.
  split; [exact H | exact (@accepted_email_has_no_space _ H)].
Defined.

(** X3. An email that [emailRegex] accepts is at least five code units
    long and neither begins nor ends with [@]. *)
Theorem accepted_email_is_long_enough (s : jsstring) :
  test emailRegex s = true ->
  5 <= List.length s /\
  (exists c s', s = c :: s' /\ c <> at_sign) /\
  (exists s' c, s = s' ++ [c] /\ c <> at_sign).
Proof.
  intros H. apply emailRegex_test_shape in H.
  destruct H as (x & y & z & Hx & Hy & Hz & ->).
  split; [ | split].
  - rewrite length_app. simpl. rewrite length_app. simpl.
    apply part_length in Hx, Hy, Hz. lia.
  - destruct Hx as [Hne Hall]. destruct Hall as [ | c x' [_ Hc] _].
    + congruence.
    + exists c, (x' ++ at_sign :: y ++ full_stop :: z).
      split; [reflexivity | exact Hc].
  - destruct Hz as [Hne Hall].
    destruct (exists_last Hne) as (z' & c & ->).
    apply Forall_app in Hall. destruct Hall as [_ Hc].
    inversion Hc as [ | ? ? [_ Hc'] _]; subst.
    exists (x ++ at_sign :: y ++ full_stop :: z'), c.
    split; [ | exact Hc'].
    rewrite <- app_assoc. simpl. rewrite <- app_assoc. reflexivity.
Qed.

Lemma accepted_email_is_long_enough_witness :
  test emailRegex (lit "a@b.c") = true /\ 5 <= List.length (lit "a@b.c").
Proof.
  assert (H : test emailRegex (lit "a@b.c") = true) by reflexivity.
  split; [exact H | exact (proj1 (@accepted_email_is_long_enough _ H))].
Defined.

(** ** Every attempt has one of a few outcomes *)

Lemma signup_outcomes (fetch : jsstring -> request -> fetch_outcome)
  (p : SignUp.state) :
  (~ Spec.registration_valid p /\
   exists m title txt,
     In m [SignUp.msg_missing; SignUp.msg_invalid_email;
           SignUp.msg_weak_password] /\
     SignUp.submit fetch p = SignUp.rejected p m title txt) \/
  (Spec.registration_valid p /\
   exists m title msg,
     SignUp.submit fetch p = SignUp.finished p (cross_mark ++ m) title msg []) \/
  (Spec.registration_valid p /\
   SignUp.submit fetch p =
   SignUp.finished p SignUp.msg_created (party_mark ++ lit " Success!")
     (VStr SignUp.txt_created)
     [ {| text := lit "Sign In Now"; onPress := SignInNow |} ]).
Proof.
  destruct (signup_cases fetch p)
    as [[H E] | [(H & He & E) | [(H & He & Hp & E) | Hv]]].
  - left. split.
    + intros Hv. apply registration_valid_checks in Hv. destruct Hv; congruence.
    + do 3 eexists. split; [ | exact E]. simpl; auto.
  - left. split.
    + intros Hv. apply registration_valid_checks in Hv.
      destruct Hv as (_ & ? & _); congruence.
    + do 3 eexists. split; [ | exact E]. simpl; auto.
  - left. split.
    + intros (_ & _ & Hge). lia.
    + do 3 eexists. split; [ | exact E]. simpl; auto.
  - right.
    destruct (fetch SignUp.register_url (SignUp.register_init p))
      as [e | r] eqn:Hf.
    { left. split; [exact Hv | ].
      exists (lit " Connection error"). do 2 eexists.
      apply (signup_path_rejects fetch Hv Hf). }
    destruct (resp_body r) as [data | ] eqn:Hb.
    2:{ left. split; [exact Hv | ].
        exists (lit " Connection error"). do 2 eexists.
        apply (signup_path_not_json fetch Hv Hf Hb). }
    destruct (ok r) eqn:Hok.
    + right. split; [exact Hv | apply (signup_path_ok fetch Hv Hf Hb Hok)].
    + left. split; [exact Hv | apply (signup_path_not_ok fetch Hv Hf Hok)].
Qed.

Lemma signin_outcomes
  (login : jsstring -> jsstring -> jsstring -> login_outcome)
  (p : SignIn.state) :
  (~ Spec.login_valid p /\
   exists m title txt,
     In m [SignIn.msg_missing; SignIn.msg_invalid_email] /\
     SignIn.submit login p = SignIn.rejected p m title txt) \/
  (Spec.login_valid p /\
   (forall data,
       login (SignIn.email p) (SignIn.password p) (SignIn.role p)
       = LoginResolves data -> truthy data = false) /\
   exists c m title msg,
     In m [SignIn.msg_connection; SignIn.msg_invalid_credentials] /\
     SignIn.submit login p = SignIn.finished c p m title msg []) \/
  (Spec.login_valid p /\
   exists data token user,
     login (SignIn.email p) (SignIn.password p) (SignIn.role p)
     = LoginResolves data /\
     truthy data = true /\
     get data (lit "token") = Normal token /\
     get data (lit "user") = Normal user /\
     SignIn.submit login p =
     SignIn.finished (Normal tt) p SignIn.msg_success
       (party_mark ++ lit " Welcome Back!")
       (VStr (lit "You're now signed in as " ++ SignIn.role p ++ lit "."))
       [ {| text := lit "Continue";
            onPress := Continue (SignIn.role p) user token |} ]).
Proof.
  destruct (signin_cases login p) as [[H E] | [(H & He & E) | Hv]].
  - left. split.
    + intros Hv. apply login_valid_checks in Hv. destruct Hv; congruence.
    + do 3 eexists. split; [ | exact E]. simpl; auto.
  - left. split.
    + intros Hv. apply login_valid_checks in Hv. destruct Hv; congruence.
    + do 3 eexists. split; [ | exact E]. simpl; auto.
  - right.
    destruct (login (SignIn.email p) (SignIn.password p) (SignIn.role p))
      as [e | data] eqn:Hl.
    { left. split; [exact Hv | split; [discriminate | ]].
      do 4 eexists. split; [ | apply (signin_path_rejects login Hv Hl)].
      simpl; auto. }
    destruct (truthy data) eqn:Ht.
    + right. split; [exact Hv | ].
      destruct (get_truthy data (lit "token") Ht) as [token Htok].
      destruct (get_truthy data (lit "user") Ht) as [user Husr].
      exists data, token, user. repeat split; try assumption.
      apply (signin_path_success login Hv Hl Ht Htok Husr).
    + left. split; [exact Hv | split].
      * intros data' E. injection E as <-. exact Ht.
      * do 4 eexists. split; [ | apply (signin_path_falsy login Hv Hl Ht)].
        simpl; auto.
Qed.

(** ** A submit leaves the form alone *)

(** X4. On both screens a submit never changes what the user typed nor
    the visibility of the password, on any path and whatever the gateway
    answers: only [loading] and the status text are set. *)
Theorem submit_keeps_the_form :
  (forall (fetch : jsstring -> request -> fetch_outcome) (p : SignUp.state),
      SignUp.fields (fst (snd (SignUp.submit fetch p))) = SignUp.fields p /\
      SignUp.showPassword (fst (snd (SignUp.submit fetch p))) =
      SignUp.showPassword p) /\
  (forall (login : jsstring -> jsstring -> jsstring -> login_outcome)
          (p : SignIn.state),
      SignIn.fields (fst (snd (SignIn.submit login p))) = SignIn.fields p /\
      SignIn.role (fst (snd (SignIn.submit login p))) = SignIn.role p /\
      SignIn.showPassword (fst (snd (SignIn.submit login p))) =
      SignIn.showPassword p).
Proof.
  split.
  - intros fetch p.
    destruct (signup_outcomes fetch p)
      as [(_ & m & t & x & _ & E) | [(_ & m & t & x & E) | (_ & E)]];
      rewrite E; split; reflexivity.
  - intros login p.
    destruct (signin_outcomes login p)
      as [(_ & m & t & x & _ & E)
         | [(_ & _ & c & m & t & x & _ & E)
           | (_ & d & tk & u & _ & _ & _ & _ & E)]];
      rewrite E; repeat split.
Qed.

(** X5. Neither handler navigates: whatever the form and the gateway, the
    trace of a submit holds no navigation.  The screen is left only by a
    button of an alert or by the link of the footer. *)
Theorem submit_never_navigates :
  (forall (fetch : jsstring -> request -> fetch_outcome) (p : SignUp.state),
      existsb is_navigate (snd (snd (SignUp.submit fetch p))) = false) /\
  (forall (login : jsstring -> jsstring -> jsstring -> login_outcome)
          (p : SignIn.state),
      existsb is_navigate (snd (snd (SignIn.submit login p))) = false).
Proof.
  split.
  - intros fetch p.
    destruct (signup_outcomes fetch p)
      as [(_ & m & t & x & _ & E) | [(_ & m & t & x & E) | (_ & E)]];
      rewrite E; reflexivity.
  - intros login p.
    destruct (signin_outcomes login p)
      as [(_ & m & t & x & _ & E)
         | [(_ & _ & c & m & t & x & _ & E)
           | (_ & d & tk & u & _ & _ & _ & _ & E)]];
      rewrite E; reflexivity.
Qed.

(** ** One alert, at most one request *)

(** X6. Every submit raises exactly one alert.  The alert has a button
    only when the attempt succeeded, and then just one: Sign In Now after
    a registration, Continue after a login; after any failure the alert
    has none and the status text starts with the cross mark. *)
Theorem one_alert_per_submit :
  (forall (fetch : jsstring -> request -> fetch_outcome) (p : SignUp.state),
      exists title msg buttons,
        alerts (snd (snd (SignUp.submit fetch p))) = [Alert title msg buttons] /\
        ((buttons = [] /\
          starts_with cross_mark
            (SignUp.statusMessage (fst (snd (SignUp.submit fetch p)))) = true) \/
         (buttons = [ {| text := lit "Sign In Now"; onPress := SignInNow |} ] /\
          SignUp.statusMessage (fst (snd (SignUp.submit fetch p))) =
          SignUp.msg_created))) /\
  (forall (login : jsstring -> jsstring -> jsstring -> login_outcome)
          (p : SignIn.state),
      exists title msg buttons,
        alerts (snd (snd (SignIn.submit login p))) = [Alert title msg buttons] /\
        ((buttons = [] /\
          starts_with cross_mark
            (SignIn.message (fst (snd (SignIn.submit login p)))) = true) \/
         ((exists user token,
              buttons = [ {| text := lit "Continue";
                             onPress := Continue (SignIn.role p) user token |} ]) /\
          SignIn.message (fst (snd (SignIn.submit login p))) =
          SignIn.msg_success))).
Proof.
  split.
  - intros fetch p.
    destruct (signup_outcomes fetch p)
      as [(_ & m & t & x & Hm & E) | [(_ & m & t & x & E) | (_ & E)]];
      rewrite E; do 3 eexists; (split; [reflexivity | ]).
    + left. split; [reflexivity | ].
      simpl in Hm. destruct Hm as [<- | [<- | [<- | []]]]; reflexivity.
    + left. split; reflexivity.
    + right. split; reflexivity.
  - intros login p.
    destruct (signin_outcomes login p)
      as [(_ & m & t & x & Hm & E)
         | [(_ & _ & c & m & t & x & Hm & E)
           | (_ & d & tk & u & _ & _ & _ & _ & E)]];
      rewrite E; do 3 eexists; (split; [reflexivity | ]).
    + left. split; [reflexivity | ].
      simpl in Hm. destruct Hm as [<- | [<- | []]]; reflexivity.
    + left. split; [reflexivity | ].
      simpl in Hm. destruct Hm as [<- | [<- | []]]; reflexivity.
    + right. split; [eauto | reflexivity].
Qed.

(** X7. A submit calls the gateway at most once and never retries.  A
    valid registration is sent once, as a POST of the six strings of the
    form to the fixed address with a JSON content type; a valid login is
    sent once with the email, the password and the role of the form.  A
    form that is not valid sends nothing. *)
Theorem at_most_one_request_per_submit :
  (forall (fetch : jsstring -> request -> fetch_outcome) (p : SignUp.state),
      (Spec.registration_valid p ->
       gateway_calls (snd (snd (SignUp.submit fetch p))) =
       [Fetch (lit "https://herbackend-4.onrender.com/api/auth/register")
          {| method := lit "POST";
             headers := [(lit "Content-Type", lit "application/json")];
             req_body :=
               VObj [(lit "fullName", VStr (SignUp.fullName p));
                     (lit "email", VStr (SignUp.email p));
                     (lit "password", VStr (SignUp.password p));
                     (lit "phone", VStr (SignUp.phone p));
                     (lit "nationalID", VStr (SignUp.nationalID p));
                     (lit "role", VStr (SignUp.role p))] |}]) /\
      (~ Spec.registration_valid p ->
       gateway_calls (snd (snd (SignUp.submit fetch p))) = [])) /\
  (forall (login : jsstring -> jsstring -> jsstring -> login_outcome)
          (p : SignIn.state),
      (Spec.login_valid p ->
       gateway_calls (snd (snd (SignIn.submit login p))) =
       [Login (SignIn.email p) (SignIn.password p) (SignIn.role p)]) /\
      (~ Spec.login_valid p ->
       gateway_calls (snd (snd (SignIn.submit login p))) = [])).
Proof.
  split.
  - intros fetch p. split; intros Hv;
      destruct (signup_outcomes fetch p)
        as [(Hn & m & t & x & _ & E) | [(Hv' & m & t & x & E) | (Hv' & E)]];
      try contradiction; rewrite E; reflexivity.
  - intros login p. split; intros Hv;
      destruct (signin_outcomes login p)
        as [(Hn & m & t & x & _ & E)
           | [(Hv' & _ & c & m & t & x & _ & E)
             | (Hv' & d & tk & u & _ & _ & _ & _ & E)]];
      try contradiction; rewrite E; reflexivity.
Qed.

Lemma at_most_one_request_per_submit_witness :
  (Spec.registration_valid Scenario.jane /\
   List.length
     (gateway_calls
        (snd (snd (SignUp.submit Scenario.network_down Scenario.jane)))) = 1) /\
  (~ Spec.login_valid Scenario.bad_email /\
   gateway_calls
     (snd (snd (SignIn.submit Scenario.login_t1 Scenario.bad_email))) = []).
Proof.
  assert (Hbad : ~ Spec.login_valid Scenario.bad_email).
  { intros Hv. apply login_valid_checks in Hv. destruct Hv as [_ Hv].
    discriminate Hv. }
  split; split.
  - exact registration_valid_jane.
  - rewrite (proj1 (proj1 at_most_one_request_per_submit
                      Scenario.network_down Scenario.jane)
               registration_valid_jane).
    reflexivity.
  - exact Hbad.
  - exact (proj2 (proj2 at_most_one_request_per_submit
                    Scenario.login_t1 Scenario.bad_email) Hbad).
Defined.

(** ** The status banner *)

(** X8. After any submit on the sign-in screen the status banner is
    shown, and its colour tells the outcome: green with the success text
    exactly when the form was valid and the gateway resolved to a truthy
    value, red in every other case (a rejected form, a rejected or thrown
    call, a falsy result). *)
Theorem signin_banner_tells_the_outcome
  (login : jsstring -> jsstring -> jsstring -> login_outcome)
  (p : SignIn.state) :
  (forall data,
      Spec.login_valid p ->
      login (SignIn.email p) (SignIn.password p) (SignIn.role p)
      = LoginResolves data ->
      truthy data = true ->
      SignIn.statusBanner (SignIn.message (fst (snd (SignIn.submit login p)))) =
      Some {| backgroundColor := lit "rgba(76, 175, 80, 0.1)";
              borderLeftColor := SignIn.COLORS.STATUS_GREEN;
              color := SignIn.COLORS.STATUS_GREEN;
              children := SignIn.msg_success |}) /\
  (~ Spec.login_valid p \/
   (forall data,
       login (SignIn.email p) (SignIn.password p) (SignIn.role p)
       = LoginResolves data -> truthy data = false) ->
   SignIn.statusBanner (SignIn.message (fst (snd (SignIn.submit login p)))) =
   Some {| backgroundColor := lit "rgba(255, 76, 76, 0.1)";
           borderLeftColor := SignIn.COLORS.STATUS_RED;
           color := SignIn.COLORS.STATUS_RED;
           children := SignIn.message (fst (snd (SignIn.submit login p))) |}).
Proof.
  destruct (signin_outcomes login p)
    as [(Hn & m & t & x & Hm & E)
       | [(Hv & Hf & c & m & t & x & Hm & E)
         | (Hv & d & tk & u & Hl & Ht & _ & _ & E)]].
  - split; [intros data Hv; contradiction | ].
    intros _. rewrite E. simpl in Hm.
    destruct Hm as [<- | [<- | []]]; reflexivity.
  - split.
    + intros data _ Hl Ht. rewrite (Hf data Hl) in Ht. discriminate Ht.
    + intros _. rewrite E. simpl in Hm.
      destruct Hm as [<- | [<- | []]]; reflexivity.
  - split.
    + intros _ _ _ _. rewrite E. reflexivity.
    + intros [Hn | Hf]; [contradiction | ].
      rewrite (Hf d Hl) in Ht. discriminate Ht.
Qed.

Lemma signin_banner_tells_the_outcome_witness :
  (Spec.login_valid Scenario.agent /\
   color
     (match SignIn.statusBanner
              (SignIn.message
                 (fst (snd (SignIn.submit Scenario.login_t1 Scenario.agent))))
      with
      | Some v => v
      | None => {| backgroundColor := []; borderLeftColor := [];
                   color := []; children := [] |}
      end) = SignIn.COLORS.STATUS_GREEN) /\
  (truthy VNull = false /\
   color
     (match SignIn.statusBanner
              (SignIn.message
                 (fst (snd (SignIn.submit Scenario.login_null Scenario.agent))))
      with
      | Some v => v
      | None => {| backgroundColor := []; borderLeftColor := [];
                   color := []; children := [] |}
      end) = SignIn.COLORS.STATUS_RED).
Proof.
  split; split.
  - exact login_valid_agent.
  - rewrite (proj1 (signin_banner_tells_the_outcome
                      Scenario.login_t1 Scenario.agent)
               _ login_valid_agent eq_refl eq_refl).
    reflexivity.
  - reflexivity.
  - rewrite (proj2 (signin_banner_tells_the_outcome
                      Scenario.login_null Scenario.agent)).
    + reflexivity.
    + right. intros data E. injection E as <-. reflexivity.
Defined.

(** X9. After a registration that the server refused with a message, the
    banner shows the cross mark and the text chosen for the message, in
    red, unless that text contains the check mark: the test for the check
    mark comes first (line 162), and the failure is then shown in the
    green of a success. *)
Theorem signup_banner_after_server_message
  (fetch : jsstring -> request -> fetch_outcome) (p : SignUp.state)
  (r : response) (data : jsvalue) (m : jsstring) :
  Spec.registration_valid p ->
  fetch SignUp.register_url (SignUp.register_init p) = FetchResolves r ->
  (status r < 200 \/ 299 < status r)%N ->
  resp_body r = Some data ->
  get data (lit "message") = Normal (VStr m) ->
  m <> [] ->
  SignUp.statusBanner
    (SignUp.statusMessage (fst (snd (SignUp.submit fetch p)))) =
  Some {| backgroundColor :=
            if includes (SignUp.shown_message m) check_mark
            then lit "rgba(76, 175, 80, 0.1)"
            else lit "rgba(255, 76, 76, 0.1)";
          borderLeftColor :=
            if includes (SignUp.shown_message m) check_mark
            then SignUp.COLORS.SUCCESS else SignUp.COLORS.ERROR;
          color :=
            if includes (SignUp.shown_message m) check_mark
            then SignUp.COLORS.SUCCESS else SignUp.COLORS.ERROR;
          children := cross_mark ++ lit " " ++ SignUp.shown_message m |}.
Proof.
  intros Hv Hf Hst Hb Hm Hne. apply ok_false_spec in Hst.
  rewrite (signup_path_message fetch Hv Hf Hb Hst Hm Hne).
  unfold SignUp.finished, SignUp.with_ui. cbn [fst snd SignUp.statusMessage].
  generalize (SignUp.shown_message m). intros shown.
  unfold SignUp.statusBanner.
  change (cross_mark ++ lit " " ++ shown) with (0x274C%N :: 0x20%N :: shown).
  change (includes (0x274C%N :: 0x20%N :: shown) check_mark)
    with (includes shown check_mark).
  change (includes (0x274C%N :: 0x20%N :: shown) cross_mark) with true.
  cbn [str_falsy negb].
  destruct (includes shown check_mark); reflexivity.
Qed.

Lemma signup_banner_after_server_message_witness :
  Spec.registration_valid Scenario.jane /\
  (299 < 409)%N /\
  check_mark ++ lit " saved" <> [] /\
  color
    (match SignUp.statusBanner
             (SignUp.statusMessage
                (fst (snd (SignUp.submit
                             (fun _ _ =>
                                FetchResolves
                                  {| status := 409;
                                     resp_body :=
                                       Some (VObj [(lit "message",
                                                    VStr (check_mark ++ lit " saved"))]) |})
                             Scenario.jane))))
     with
     | Some v => v
     | None => {| backgroundColor := []; borderLeftColor := [];
                  color := []; children := [] |}
     end) = SignUp.COLORS.SUCCESS.
Proof.
  assert (Hst : (299 < 409)%N) by reflexivity.
  assert (Hne : check_mark ++ lit " saved" <> []) by discriminate.
  split; [exact registration_valid_jane | split; [exact Hst | split; [exact Hne | ]]].
  rewrite (@signup_banner_after_server_message
             (fun _ _ =>
                FetchResolves
                  {| status := 409;
                     resp_body :=
                       Some (VObj [(lit "message",
                                    VStr (check_mark ++ lit " saved"))]) |})
             Scenario.jane _ _ _
             registration_valid_jane eq_refl (or_intror Hst) eq_refl eq_refl Hne).
  reflexivity.
Defined.

(** ** Answers without a usable message *)

(** X10. When the server refuses a registration and the body has no
    message, or one that is falsy ([undefined], [null], [false], zero or
    the empty string), the text shown is the default one. *)
Theorem registration_failure_without_message
  (fetch : jsstring -> request -> fetch_outcome) (p : SignUp.state)
  (r : response) (data m : jsvalue) :
  Spec.registration_valid p ->
  fetch SignUp.register_url (SignUp.register_init p) = FetchResolves r ->
  (status r < 200 \/ 299 < status r)%N ->
  resp_body r = Some data ->
  get data (lit "message") = Normal m ->
  truthy m = false ->
  SignUp.submit fetch p =
  SignUp.finished p
    (cross_mark ++ lit " Registration failed. Please try again.")
    (lit "Registration Failed")
    (VStr (lit "Registration failed. Please try again.")) [].
Proof.
  intros Hv Hf Hst Hb Hm Ht. apply ok_false_spec in Hst.
  apply registration_valid_checks in Hv. destruct Hv as (H & He & Hp).
  enter_signup H He Hp. rewrite Hf. run_handler. rewrite Hb, Hst.
  run_handler. rewrite !Hm, Ht. reflexivity.
Qed.

Lemma registration_failure_without_message_witness :
  Spec.registration_valid Scenario.jane /\
  (299 < 500)%N /\
  truthy VUndefined = false /\
  SignUp.statusMessage
    (fst (snd (SignUp.submit
                 (fun _ _ =>
                    FetchResolves
                      {| status := 500;
                         resp_body := Some (VObj [(lit "error", VBool true)]) |})
                 Scenario.jane))) =
  cross_mark ++ lit " Registration failed. Please try again.".
Proof.
  assert (Hst : (299 < 500)%N) by reflexivity.
  split; [exact registration_valid_jane
         | split; [exact Hst | split; [reflexivity | ]]].
  rewrite (@registration_failure_without_message
             (fun _ _ =>
                FetchResolves
                  {| status := 500;
                     resp_body := Some (VObj [(lit "error", VBool true)]) |})
             Scenario.jane _ _ VUndefined
             registration_valid_jane eq_refl (or_intror Hst) eq_refl
             eq_refl eq_refl).
  reflexivity.
Defined.

(** X11. A refusal of the server is reported as a connection error, as
    if the server had not been reached, when its JSON body is [null], or
    when its message is truthy but neither a string nor an array (a
    number, [true], an object): [data.message] or [data.message.includes]
    then throws inside the [try], and the [catch] takes over. *)
Theorem registration_failure_shown_as_connection_error
  (fetch : jsstring -> request -> fetch_outcome) (p : SignUp.state)
  (r : response) (data : jsvalue) :
  Spec.registration_valid p ->
  fetch SignUp.register_url (SignUp.register_init p) = FetchResolves r ->
  (status r < 200 \/ 299 < status r)%N ->
  resp_body r = Some data ->
  (data = VNull \/
   exists m, get data (lit "message") = Normal m /\
             truthy m = true /\
             (forall t, m <> VStr t) /\ (forall l, m <> VArr l)) ->
  SignUp.submit fetch p =
  SignUp.finished p SignUp.msg_connection (lit "Connection Error")
    (VStr SignUp.txt_connection) [].
Proof.
  intros Hv Hf Hst Hb Hdata. apply ok_false_spec in Hst.
  apply registration_valid_checks in Hv. destruct Hv as (H & He & Hp).
  enter_signup H He Hp. rewrite Hf. run_handler. rewrite Hb, Hst.
  run_handler.
  destruct Hdata as [-> | (m & Hm & Ht & Hs & Ha)]; [reflexivity | ].
  rewrite !Hm, Ht.
  destruct m as [ | | b | n | t | l | members]; simpl in Ht;
    try discriminate Ht; try reflexivity.
  - exfalso. exact (Hs t eq_refl).
  - exfalso. exact (Ha l eq_refl).
Qed.

Lemma registration_failure_shown_as_connection_error_witness :
  Spec.registration_valid Scenario.jane /\
  (299 < 500)%N /\
  SignUp.statusMessage
    (fst (snd (SignUp.submit
                 (fun _ _ =>
                    FetchResolves {| status := 500; resp_body := Some VNull |})
                 Scenario.jane))) = SignUp.msg_connection.
Proof.
  assert (Hst : (299 < 500)%N) by reflexivity.
  split; [exact registration_valid_jane | split; [exact Hst | ]].
  rewrite (@registration_failure_shown_as_connection_error
             (fun _ _ =>
                FetchResolves {| status := 500; resp_body := Some VNull |})
             Scenario.jane _ _
             registration_valid_jane eq_refl (or_intror Hst) eq_refl
             (or_introl eq_refl)).
  reflexivity.
Defined.

(** ** After the success alert *)

(** X12. Once the Sign In Now button of the success alert has emptied the
    form, a further press of Sign Up sends nothing: it is answered by the
    missing-fields error, whatever the state was before. *)
Theorem resubmit_after_success_sends_nothing
  (fetch : jsstring -> request -> fetch_outcome)
  (w : SignUp.state * list event) :
  SignUp.submit fetch (fst (snd (SignUp.press SignInNow w))) =
  SignUp.rejected (SignUp.cleared (fst w)) SignUp.msg_missing
    (lit "Missing Information")
    (lit "Please fill in all fields before signing up.") /\
  gateway_calls
    (snd (snd (SignUp.submit fetch (fst (snd (SignUp.press SignInNow w)))))) = [].
Proof.
  rewrite press_SignInNow. cbn [fst snd].
  rewrite (@signup_path_missing fetch (SignUp.cleared (fst w)) eq_refl).
  split; reflexivity.
Qed.

(** ** Handlers only append to the trace *)

Lemma framed_ret (S A : Type) (a : A) : framed (@ret S A a).
Proof. intros s tr. unfold ret. simpl. rewrite app_nil_r. reflexivity. Qed.

Lemma framed_return (S A : Type) : framed (@return_ S A).
Proof. intros s tr. unfold return_. simpl. rewrite app_nil_r. reflexivity. Qed.

Lemma framed_throw (S A : Type) (e : jserror) : framed (@throw S A e).
Proof. intros s tr. unfold throw. simpl. rewrite app_nil_r. reflexivity. Qed.

Lemma framed_lift (S A : Type) (c : completion A) : framed (@lift S A c).
Proof. intros s tr. unfold lift. simpl. rewrite app_nil_r. reflexivity. Qed.

Lemma framed_emit (S : Type) (e : event) : framed (@emit S e).
Proof. intros s tr. reflexivity. Qed.

Lemma framed_modify (S : Type) (f : S -> S) : framed (modify f).
Proof. intros s tr. unfold modify. simpl. rewrite app_nil_r. reflexivity. Qed.

Lemma framed_bind (S A B : Type) (m : M S A) (k : A -> M S B) :
  framed m -> (forall a, framed (k a)) -> framed (bind m k).
Proof.
  intros Hm Hk s tr. unfold bind. rewrite (Hm s tr).
  destruct (m (s, [])) as [c [s1 e1]]. cbn [fst snd].
  destruct c as [a | | e]; cbn [fst snd]; try reflexivity.
  rewrite (Hk a s1 (tr ++ e1)), (Hk a s1 e1). cbn [fst snd].
  rewrite app_assoc. reflexivity.
Qed.

Lemma framed_when (S : Type) (c : bool) (m : M S unit) :
  framed m -> framed (when c m).
Proof. intros Hm. destruct c; [exact Hm | apply framed_ret]. Qed.

Lemma framed_try_catch_finally (S : Type) (body : M S unit)
  (handler : jserror -> M S unit) (fin : M S unit) :
  framed body -> (forall e, framed (handler e)) -> framed fin ->
  framed (try_catch_finally body handler fin).
Proof.
  intros Hb Hh Hf s tr. unfold try_catch_finally. rewrite (Hb s tr).
  destruct (body (s, [])) as [c1 [s1 e1]]. cbn [fst snd].
  assert (Hfin : forall (c : completion unit) s' e',
             (let (c3, w3) := fin (s', tr ++ e') in
              match c3 with
              | Normal _ => (c, w3)
              | _ => (c3, w3)
              end) =
             (fst (let (c3, w3) := fin (s', e') in
                   match c3 with
                   | Normal _ => (c, w3)
                   | _ => (c3, w3)
                   end),
              (fst (snd (let (c3, w3) := fin (s', e') in
                         match c3 with
                         | Normal _ => (c, w3)
                         | _ => (c3, w3)
                         end)),
               tr ++ snd (snd (let (c3, w3) := fin (s', e') in
                               match c3 with
                               | Normal _ => (c, w3)
                               | _ => (c3, w3)
                               end))))).
  { intros c s' e'. rewrite (Hf s' (tr ++ e')), (Hf s' e').
    destruct (fin (s', [])) as [c3 [s3 e3]].
    destruct c3; cbn [fst snd]; rewrite app_assoc; reflexivity. }
  destruct c1 as [a | | e].
  - apply Hfin.
  - apply Hfin.
  - rewrite (Hh e s1 (tr ++ e1)), (Hh e s1 e1).
    destruct (handler e (s1, [])) as [c2 [s2 e2]]. cbn [fst snd].
    rewrite <- app_assoc. apply Hfin.
Qed.

Ltac framed_step :=
  first
    [ apply framed_bind; [ | intros ? ]
    | apply framed_when
    | apply framed_try_catch_finally; [ | intros ? | ]
    | apply framed_ret
    | apply framed_return
    | apply framed_throw
    | apply framed_lift
    | apply framed_emit
    | apply framed_modify
    | match goal with
      | |- framed (if ?b then _ else _) => destruct b
      | |- framed (match ?x with _ => _ end) => destruct x
      end ].

Lemma handleSignUp_framed (fetch : jsstring -> request -> fetch_outcome)
  (p : SignUp.state) :
  framed (SignUp.handleSignUp fetch p).
Proof.
  unfold SignUp.handleSignUp, SignUp.setStatusMessage, SignUp.setLoading,
    SignUp.await_fetch, SignUp.await_json, alert.
  repeat framed_step.
Qed.

Lemma handleSignIn_framed
  (login : jsstring -> jsstring -> jsstring -> login_outcome)
  (p : SignIn.state) :
  framed (SignIn.handleSignIn login p).
Proof.
  unfold SignIn.handleSignIn, SignIn.setMessage, SignIn.setLoading,
    SignIn.await_login, alert.
  repeat framed_step.
Qed.

(** ** One step of a screen *)

Lemma press_navigates (cb : callback) (s : SignIn.state) (tr : list event) :
  exists c evs,
    SignIn.press cb (s, tr) = (c, (s, tr ++ evs)) /\
    Forall SignIn.navigates_to_known_screen evs.
Proof.
  destruct cb as [ | role user token]; unfold SignIn.press.
  - exists (Normal tt), []. rewrite app_nil_r. split; [reflexivity | constructor].
  - unfold SignIn.onPressContinue.
    destruct (jsstring_eqb role (lit "agent")).
    + run_handler. destruct (get user (lit "id")) as [id | | e].
      * do 2 eexists. split; [reflexivity | ].
        repeat constructor.
      * exists Return, []. rewrite app_nil_r. split; [reflexivity | constructor].
      * exists (Throw e), []. rewrite app_nil_r.
        split; [reflexivity | constructor].
    + do 2 eexists. split; [reflexivity | ].
      constructor; [right; left; reflexivity | constructor].
Qed.

Lemma signin_step_shape
  (login : jsstring -> jsstring -> jsstring -> login_outcome)
  (s : SignIn.state) (tr : list event) (a : SignIn.action) :
  exists s' evs,
    SignIn.step login (s, tr) a = (s', tr ++ evs) /\
    Forall SignIn.navigates_to_known_screen evs /\
    (SignIn.loading s = false -> SignIn.loading s' = false) /\
    SignIn.showPassword s' =
    (if SignIn.is_PressEye a then negb (SignIn.showPassword s)
     else SignIn.showPassword s).
Proof.
  unfold SignIn.step.
  destruct a as [t | t | i | | | n i | ]; unfold SignIn.handler_of;
    cbn [fst snd SignIn.is_PressEye].
  - do 2 eexists. split; [reflexivity | ]. repeat constructor; auto.
  - do 2 eexists. split; [reflexivity | ]. repeat constructor; auto.
  - destruct (nth_error SignIn.roles i) as [r | ].
    + do 2 eexists. split; [reflexivity | ]. repeat constructor; auto.
    + exists s, []. rewrite app_nil_r. repeat constructor; auto.
  - do 2 eexists. split; [reflexivity | ]. repeat constructor; auto.
  - destruct (SignIn.loading s) eqn:Hl.
    { exists s, []. rewrite app_nil_r.
      split; [reflexivity | split; [constructor | split; [discriminate | reflexivity]]]. }
    rewrite (handleSignIn_framed login s s tr).
    change (SignIn.handleSignIn login s (s, [])) with (SignIn.submit login s).
    cbn [fst snd]. do 2 eexists. split; [reflexivity | ].
    destruct (signin_outcomes login s)
      as [(_ & m & t & x & _ & E)
         | [(_ & _ & c & m & t & x & _ & E)
           | (_ & d & tk & u & _ & _ & _ & _ & E)]];
      rewrite E; cbn [fst snd SignIn.rejected SignIn.finished];
      (split; [repeat constructor | split; [intros _ | reflexivity]]);
      try reflexivity; exact Hl.
  - destruct (SignIn.the_button tr n i) as [cb | ].
    + destruct (press_navigates cb s tr) as (c & evs & E & Hev).
      rewrite E. cbn [fst snd]. do 2 eexists.
      split; [reflexivity | split; [exact Hev | split; [auto | reflexivity]]].
    + exists s, []. rewrite app_nil_r. repeat constructor; auto.
  - do 2 eexists. split; [reflexivity | ].
    split; [ | split; [auto | reflexivity]].
    constructor; [right; right; left; reflexivity | constructor].
Qed.

Lemma signin_fold_shape
  (login : jsstring -> jsstring -> jsstring -> login_outcome)
  (acts : list SignIn.action) :
  forall (s : SignIn.state) (tr : list event),
  exists s' evs,
    fold_left (SignIn.step login) acts (s, tr) = (s', tr ++ evs) /\
    Forall SignIn.navigates_to_known_screen evs /\
    (SignIn.loading s = false -> SignIn.loading s' = false) /\
    SignIn.showPassword s' =
    xorb (SignIn.showPassword s)
         (Nat.odd (List.length (filter SignIn.is_PressEye acts))).
Proof.
  induction acts as [ | a acts IH]; intros s tr; simpl fold_left.
  - exists s, []. rewrite app_nil_r.
    split; [reflexivity | split; [constructor | split; [auto | ]]].
    simpl. destruct (SignIn.showPassword s); reflexivity.
  - destruct (signin_step_shape login s tr a) as (s1 & e1 & E1 & N1 & L1 & P1).
    rewrite E1.
    destruct (IH s1 (tr ++ e1)) as (s2 & e2 & E2 & N2 & L2 & P2).
    rewrite E2. exists s2, (e1 ++ e2). rewrite app_assoc.
    split; [reflexivity | ].
    split; [apply Forall_app; split; assumption | ].
    split; [auto | ].
    rewrite P2, P1. simpl filter.
    destruct (SignIn.is_PressEye a); simpl List.length.
    + rewrite Nat.odd_succ, <- Nat.negb_odd.
      destruct (SignIn.showPassword s),
        (Nat.odd (List.length (filter SignIn.is_PressEye acts)));
        reflexivity.
    + reflexivity.
Qed.

(** ** The sign-up screen, action by action *)

Lemma picker_role_not_empty (r : jsstring) :
  In r SignUp.picker_values -> str_falsy r = false -> In r SignUp.picker_roles.
Proof.
  unfold SignUp.picker_values, SignUp.picker_roles. simpl.
  intros [<- | H] Hne; [discriminate Hne | exact H].
Qed.

Lemma valid_form_well_formed (s : SignUp.state) :
  Spec.registration_valid s ->
  In (SignUp.role s) SignUp.picker_values ->
  SignUp.fetch_well_formed
    (Fetch SignUp.register_url (SignUp.register_init s)).
Proof.
  intros Hv Hr. split; [reflexivity | ]. exists s.
  destruct Hv as (Hc & Hs & Hp).
  split; [reflexivity | ].
  split; [apply signup_missing_false, Hc | ].
  split; [apply emailRegex_test_shape, Hs | ].
  split; [exact Hp | ].
  apply picker_role_not_empty; [exact Hr | ].
  apply str_falsy_false. destruct Hc as (_ & _ & _ & _ & _ & Hrole).
  exact Hrole.
Qed.

Lemma signup_step_shape (fetch : jsstring -> request -> fetch_outcome)
  (s : SignUp.state) (tr : list event) (a : SignUp.action) :
  exists s' evs,
    SignUp.step fetch (s, tr) a = (s', tr ++ evs) /\
    Forall SignUp.navigates_to_SignIn evs /\
    (SignUp.loading s = false -> SignUp.loading s' = false) /\
    SignUp.showPassword s' =
    (if SignUp.is_PressEye a then negb (SignUp.showPassword s)
     else SignUp.showPassword s) /\
    (In (SignUp.role s) SignUp.picker_values ->
     In (SignUp.role s') SignUp.picker_values /\
     Forall SignUp.fetch_well_formed evs).
Proof.
  unfold SignUp.step.
  destruct a as [t | t | t | t | t | | i | | n i | ];
    unfold SignUp.handler_of; cbn [fst snd SignUp.is_PressEye].
  1-6: do 2 eexists; (split; [reflexivity | ]);
    (split; [repeat constructor | split; [auto | split; [reflexivity | ]]]);
    intros Hr; (split; [exact Hr | repeat constructor]).
  - destruct (nth_error SignUp.picker_values i) as [r | ] eqn:Hi.
    + do 2 eexists. split; [reflexivity | ].
      split; [repeat constructor | split; [auto | split; [reflexivity | ]]].
      intros _. split; [exact (nth_error_In _ _ Hi) | repeat constructor].
    + exists s, []. rewrite app_nil_r.
      split; [reflexivity | split; [constructor | split; [auto | ]]].
      split; [reflexivity | ].
      intros Hr. split; [exact Hr | constructor].
  - destruct (SignUp.loading s) eqn:Hl.
    { exists s, []. rewrite app_nil_r.
      split; [reflexivity | split; [constructor | ]].
      split; [discriminate | split; [reflexivity | ]].
      intros Hr. split; [exact Hr | constructor]. }
    rewrite (handleSignUp_framed fetch s s tr).
    change (SignUp.handleSignUp fetch s (s, [])) with (SignUp.submit fetch s).
    cbn [fst snd]. do 2 eexists. split; [reflexivity | ].
    destruct (signup_outcomes fetch s)
      as [(_ & m & t & x & _ & E) | [(Hv & m & t & x & E) | (Hv & E)]];
      rewrite E; cbn [fst snd SignUp.rejected SignUp.finished].
    + split; [repeat constructor | ].
      split; [intros _; exact Hl | split; [reflexivity | ]].
      intros Hr. split; [exact Hr | repeat constructor].
    + split; [repeat constructor | ].
      split; [reflexivity | split; [reflexivity | ]].
      intros Hr. split; [exact Hr | ].
      do 3 (constructor; [exact I | ]).
      constructor; [apply valid_form_well_formed; assumption | ].
      repeat (constructor; [exact I | ]). constructor.
    + split; [repeat constructor | ].
      split; [reflexivity | split; [reflexivity | ]].
      intros Hr. split; [exact Hr | ].
      do 3 (constructor; [exact I | ]).
      constructor; [apply valid_form_well_formed; assumption | ].
      repeat (constructor; [exact I | ]). constructor.
  - destruct (SignUp.the_button tr n i) as [[ | role user token] | ].
    + rewrite press_SignInNow. cbn [fst snd]. do 2 eexists.
      split; [reflexivity | ].
      split; [repeat constructor | ].
      split; [auto | split; [reflexivity | ]].
      intros _. split; [left; reflexivity | repeat constructor].
    + exists s, []. rewrite app_nil_r.
      split; [reflexivity | split; [constructor | split; [auto | ]]].
      split; [reflexivity | ].
      intros Hr. split; [exact Hr | constructor].
    + exists s, []. rewrite app_nil_r.
      split; [reflexivity | split; [constructor | split; [auto | ]]].
      split; [reflexivity | ].
      intros Hr. split; [exact Hr | constructor].
  - do 2 eexists. split; [reflexivity | ].
    split; [repeat constructor | ].
    split; [auto | split; [reflexivity | ]].
    intros Hr. split; [exact Hr | repeat constructor].
Qed.

Lemma signup_fold_shape (fetch : jsstring -> request -> fetch_outcome)
  (acts : list SignUp.action) :
  forall (s : SignUp.state) (tr : list event),
  exists s' evs,
    fold_left (SignUp.step fetch) acts (s, tr) = (s', tr ++ evs) /\
    Forall SignUp.navigates_to_SignIn evs /\
    (SignUp.loading s = false -> SignUp.loading s' = false) /\
    SignUp.showPassword s' =
    xorb (SignUp.showPassword s)
         (Nat.odd (List.length (filter SignUp.is_PressEye acts))) /\
    (In (SignUp.role s) SignUp.picker_values ->
     In (SignUp.role s') SignUp.picker_values /\
     Forall SignUp.fetch_well_formed evs).
Proof.
  induction acts as [ | a acts IH]; intros s tr; simpl fold_left.
  - exists s, []. rewrite app_nil_r.
    split; [reflexivity | split; [constructor | split; [auto | split]]].
    + simpl. destruct (SignUp.showPassword s); reflexivity.
    + intros Hr. split; [exact Hr | constructor].
  - destruct (signup_step_shape fetch s tr a)
      as (s1 & e1 & E1 & N1 & L1 & P1 & R1).
    rewrite E1.
    destruct (IH s1 (tr ++ e1)) as (s2 & e2 & E2 & N2 & L2 & P2 & R2).
    rewrite E2. exists s2, (e1 ++ e2). rewrite app_assoc.
    split; [reflexivity | ].
    split; [apply Forall_app; split; assumption | ].
    split; [auto | split].
    + rewrite P2, P1. simpl filter.
      destruct (SignUp.is_PressEye a); simpl List.length.
      * rewrite Nat.odd_succ, <- Nat.negb_odd.
        destruct (SignUp.showPassword s),
          (Nat.odd (List.length (filter SignUp.is_PressEye acts)));
          reflexivity.
      * reflexivity.
    + intros Hr. destruct (R1 Hr) as [Hr1 F1].
      destruct (R2 Hr1) as [Hr2 F2].
      split; [exact Hr2 | apply Forall_app; split; assumption].
Qed.

(** ** The screens at rest *)


(** X14. In every state that the sign-in screen can reach, exactly one
    of the four role buttons is drawn in gold, the one of the selected
    role. *)
Theorem signin_one_role_button_selected
  (login : jsstring -> jsstring -> jsstring -> login_outcome)
  (acts : list SignIn.action) :
  map SignIn.key
    (filter (fun b => jsstring_eqb (SignIn.button_backgroundColor b)
                                   SignIn.COLORS.ACCENT_GOLD)
            (SignIn.roleButtons (fst (SignIn.run login acts)))) =
  [SignIn.role (fst (SignIn.run login acts))].
Proof.
  assert (Hinv : SignIn.role_invariant (SignIn.run login acts)).
  { unfold SignIn.run. apply fold_role_invariant.
    split; [left; reflexivity | constructor]. }
  destruct Hinv as [Hr _]. unfold SignIn.roleButtons.
  destruct (SignIn.role (fst (SignIn.run login acts))) eqn:E;
    simpl in Hr;
    repeat (destruct Hr as [Hr | Hr]; [try discriminate Hr | ]);
    try contradiction;
    injection Hr as <- <-; reflexivity.
Qed.

(** X15. The sign-up screen navigates to SignIn and nowhere else; the
    sign-in screen navigates to AgentChat, to Dashboard or to SignUp and
    nowhere else, whatever the user does and the gateway answers. *)
Theorem navigation_targets :
  (forall (fetch : jsstring -> request -> fetch_outcome)
          (acts : list SignUp.action) (screen : jsstring) (params : jsvalue),
      In (Navigate screen params) (snd (SignUp.run fetch acts)) ->
      screen = lit "SignIn") /\
  (forall (login : jsstring -> jsstring -> jsstring -> login_outcome)
          (acts : list SignIn.action) (screen : jsstring) (params : jsvalue),
      In (Navigate screen params) (snd (SignIn.run login acts)) ->
      screen = lit "AgentChat" \/ screen = lit "Dashboard" \/
      screen = lit "SignUp").
Proof.
  split.
  - intros fetch acts screen params. unfold SignUp.run.
    destruct (signup_fold_shape fetch acts SignUp.initial [])
      as (s' & evs & E & N & _).
    rewrite E. cbn [snd app]. intros Hin.
    rewrite Forall_forall in N. exact (N _ Hin).
  - intros login acts screen params. unfold SignIn.run.
    destruct (signin_fold_shape login acts SignIn.initial [])
      as (s' & evs & E & N & _ & _).
    rewrite E. cbn [snd app]. intros Hin.
    rewrite Forall_forall in N. specialize (N _ Hin). simpl in N.
    destruct N as [<- | [<- | [<- | []]]]; auto.
Qed.

Lemma navigation_targets_witness :
  (In (Navigate (lit "SignIn") VUndefined)
      (snd (SignUp.run Scenario.server_created [SignUp.PressSignInLink])) /\
   lit "SignIn" = lit "SignIn") /\
  (In (Navigate (lit "SignUp") VUndefined)
      (snd (SignIn.run Scenario.login_t1 [SignIn.PressSignUpLink])) /\
   (lit "SignUp" = lit "AgentChat" \/ lit "SignUp" = lit "Dashboard" \/
    lit "SignUp" = lit "SignUp")).
Proof.
  assert (Hup : In (Navigate (lit "SignIn") VUndefined)
                   (snd (SignUp.run Scenario.server_created
                           [SignUp.PressSignInLink])))
    by (left; reflexivity).
  assert (Hin : In (Navigate (lit "SignUp") VUndefined)
                   (snd (SignIn.run Scenario.login_t1
                           [SignIn.PressSignUpLink])))
    by (left; reflexivity).
  split; split.
  - exact Hup.
  - exact (proj1 navigation_targets Scenario.server_created _ _ _ Hup).
  - exact Hin.
  - exact (proj2 navigation_targets Scenario.login_t1 _ _ _ Hin).
Defined.

(** X16. On either screen the password is masked exactly when the eye
    was pressed an even number of times: no other action, and no outcome
    of a submit, reveals or hides it. *)
Theorem password_masked_by_eye_parity :
  (forall (fetch : jsstring -> request -> fetch_outcome)
          (acts : list SignUp.action),
      SignUp.secureTextEntry (fst (SignUp.run fetch acts)) =
      Nat.even (List.length (filter SignUp.is_PressEye acts))) /\
  (forall (login : jsstring -> jsstring -> jsstring -> login_outcome)
          (acts : list SignIn.action),
      SignIn.secureTextEntry (fst (SignIn.run login acts)) =
      Nat.even (List.length (filter SignIn.is_PressEye acts))).
Proof.
  split.
  - intros fetch acts. unfold SignUp.run, SignUp.secureTextEntry.
    destruct (signup_fold_shape fetch acts SignUp.initial [])
      as (s' & evs & E & _ & _ & P & _).
    rewrite E. cbn [fst]. rewrite P.
    cbn [SignUp.showPassword SignUp.initial xorb].
    rewrite <- Nat.negb_odd.
    destruct (Nat.odd (List.length (filter SignUp.is_PressEye acts)));
      reflexivity.
  - intros login acts. unfold SignIn.run, SignIn.secureTextEntry.
    destruct (signin_fold_shape login acts SignIn.initial [])
      as (s' & evs & E & _ & _ & P).
    rewrite E. cbn [fst]. rewrite P.
    cbn [SignIn.showPassword SignIn.initial xorb].
    rewrite <- Nat.negb_odd.
    destruct (Nat.odd (List.length (filter SignIn.is_PressEye acts)));
      reflexivity.
Qed.

(** ** What the sign-up screen sends *)

(** X17. Every request that the sign-up screen ever sends goes to the
    registration address and carries a form that passes every check, with
    a role that the picker offers: [carrier], [sender] or [receiver].  The
    placeholder of the picker, the empty role, is never sent. *)
Theorem signup_requests_are_well_formed
  (fetch : jsstring -> request -> fetch_outcome)
  (acts : list SignUp.action) (url : jsstring) (init : request) :
  In (Fetch url init) (snd (SignUp.run fetch acts)) ->
  url = lit "https://herbackend-4.onrender.com/api/auth/register" /\
  exists p,
    init = SignUp.register_init p /\
    Spec.registration_valid p /\
    (SignUp.role p = lit "carrier" \/ SignUp.role p = lit "sender" \/
     SignUp.role p = lit "receiver").
Proof.
  unfold SignUp.run.
  destruct (signup_fold_shape fetch acts SignUp.initial [])
    as (s' & evs & E & _ & _ & _ & R).
  rewrite E. cbn [snd app]. intros Hin.
  destruct R as [_ F]; [left; reflexivity | ].
  rewrite Forall_forall in F. specialize (F _ Hin).
  destruct F as (Hurl & p & Hinit & Hm & He & Hp & Hr).
  split; [exact Hurl | ]. exists p. split; [exact Hinit | ].
  split.
  - apply registration_valid_checks. repeat split; try assumption.
    apply Nat.ltb_ge, Hp.
  - simpl in Hr. destruct Hr as [<- | [<- | [<- | []]]]; auto.
Qed.

Lemma signup_requests_are_well_formed_witness :
  In (Fetch SignUp.register_url (SignUp.register_init Scenario.jane))
     (snd (SignUp.run Scenario.server_created
             [SignUp.TypeFullName (lit "Jane Doe");
              SignUp.TypeEmail (lit "jane@example.com");
              SignUp.TypePhone (lit "555-0100");
              SignUp.TypeNationalID (lit "X123");
              SignUp.TypePassword (lit "secret1");
              SignUp.PickRole 2;
              SignUp.PressSignUp])) /\
  SignUp.register_url =
  lit "https://herbackend-4.onrender.com/api/auth/register".
Proof.
  assert (H : In (Fetch SignUp.register_url
                    (SignUp.register_init Scenario.jane))
                 (snd (SignUp.run Scenario.server_created
                         [SignUp.TypeFullName (lit "Jane Doe");
                          SignUp.TypeEmail (lit "jane@example.com");
                          SignUp.TypePhone (lit "555-0100");
                          SignUp.TypeNationalID (lit "X123");
                          SignUp.TypePassword (lit "secret1");
                          SignUp.PickRole 2;
                          SignUp.PressSignUp]))).
  { vm_compute. do 9 right. left. reflexivity. }
  split; [exact H | ].
  exact (proj1 (@signup_requests_are_well_formed
                  Scenario.server_created _ _ _ H)).
Defined.

(** ** A login result without a user *)

(** X18. When an agent logs in and the gateway resolves to a truthy value
    whose [user] is [undefined] or [null], the attempt still ends with the
    success text and the Continue button; pressing it throws a TypeError
    at [user.id] and navigates nowhere, leaving state and trace as they
    were. *)
Theorem agent_login_without_user_goes_nowhere
  (login : jsstring -> jsstring -> jsstring -> login_outcome)
  (p : SignIn.state) (data token user : jsvalue) :
  Spec.login_valid p ->
  SignIn.role p = lit "agent" ->
  login (SignIn.email p) (SignIn.password p) (SignIn.role p)
    = LoginResolves data ->
  truthy data = true ->
  get data (lit "token") = Normal token ->
  get data (lit "user") = Normal user ->
  user = VUndefined \/ user = VNull ->
  SignIn.message (fst (snd (SignIn.submit login p))) = SignIn.msg_success /\
  alerts (snd (snd (SignIn.submit login p))) =
  [Alert (party_mark ++ lit " Welcome Back!")
     (VStr (lit "You're now signed in as agent."))
     [ {| text := lit "Continue";
          onPress := Continue (lit "agent") user token |} ]] /\
  forall w : SignIn.state * list event,
    SignIn.press (Continue (lit "agent") user token) w = (Throw TypeError, w).
Proof.
  intros Hv Hr Hl Ht Htok Husr Hu.
  rewrite (signin_path_success login Hv Hl Ht Htok Husr). rewrite Hr.
  split; [reflexivity | split; [reflexivity | ]].
  intros w. apply press_Continue_agent_without_user.
  destruct Hu as [-> | ->]; reflexivity.
Qed.

Lemma agent_login_without_user_goes_nowhere_witness :
  Spec.login_valid Scenario.agent /\
  truthy (VObj [(lit "token", VStr (lit "t1"))]) = true /\
  SignIn.press (Continue (lit "agent") VUndefined (VStr (lit "t1")))
    (SignIn.initial, []) =
  (Throw TypeError, (SignIn.initial, [])).
Proof.
  split; [exact login_valid_agent | split; [reflexivity | ]].
  exact (proj2 (proj2 (@agent_login_without_user_goes_nowhere
                         (fun _ _ _ =>
                            LoginResolves
                              (VObj [(lit "token", VStr (lit "t1"))]))
                         Scenario.agent
                         (VObj [(lit "token", VStr (lit "t1"))])
                         (VStr (lit "t1")) VUndefined
                         login_valid_agent eq_refl eq_refl eq_refl eq_refl
                         eq_refl (or_introl eq_refl)))
           (SignIn.initial, [])).
Defined.
